(** * IBMDevDay2026 demo: the watsonx proxy and the chat client

    A shallow embedding of the two pieces of logic of the repository:

    - [Server]: the Express proxy (server.js): [getIAMToken], the
      [/api/watsonx/chat] handler and the [/api/watsonx/validate] handler;
    - [App]: the React client (frontend/src/App.js): the usage record kept in
      [localStorage] ([getUsage], [saveUsage], [incrementUsage]), the
      dashboard's [handleSelectAgent] and [handleIncrement], and the
      [AgentChat] component (agent-change effect, [handleSubmit]).

    JavaScript values that cross the wire are JSON values ([Json.json]); a
    JavaScript expression that may be [undefined] has type [Json.jsval]. *)

From Stdlib Require Import ZArith.
From stdpp Require Import gmap strings list.

Local Open Scope Z_scope.

(** ** JSON values and the JavaScript operators the code applies to them *)

Module Json.

(** What [JSON.parse] produces.  Numbers are restricted to integers: the
    proxy never computes with a number, it only tests one for truthiness. *)
#[warnings="-register-all"]
Inductive json : Type :=
  | JNull
  | JBool (b : bool)
  | JNum (n : Z)
  | JStr (s : string)
  | JArr (l : list json)
  | JObj (m : gmap string json).

(** The value of a JavaScript expression: [None] is [undefined]. *)
Abbreviation jsval := (option json).

(** Synchronous or awaited evaluation either returns or throws; of a thrown
    [Error] only [.message] is ever read. *)
Inductive result (A : Type) : Type :=
  | Ok (a : A)
  | Throw (message : string).
Arguments Ok {A} a.
Arguments Throw {A} message.

(** ToBoolean, as used by [!x] and [x || y]. *)
Definition truthy (v : jsval) : bool :=
  match v with
  | None | Some JNull => false
  | Some (JBool b) => b
  | Some (JNum n) => negb (n =? 0)
  | Some (JStr s) => negb (String.eqb s "")
  | Some (JArr _) | Some (JObj _) => true
  end.

(** [a || b] *)
Definition js_or (a b : jsval) : jsval := if truthy a then a else b.

(** [Array.isArray(v)] *)
Definition isArray (v : jsval) : bool :=
  match v with Some (JArr _) => true | _ => false end.

(** [j.k] for a value [j] that is neither [undefined] nor [null] and a
    property name [k] that no prototype defines (the handlers read [apiKey],
    [messages], [systemPrompt], [access_token], [error], [message],
    [choices], [content] and [usage]): the own property of an object,
    [undefined] on anything else. *)
Definition own_prop (j : json) (k : string) : jsval :=
  match j with
  | JObj m => m !! k
  | _ => None
  end.

(** The message V8 gives the TypeError of a property read on [undefined] or
    [null]. *)
Definition cannot_read (base k : string) : string :=
  "Cannot read properties of " +:+ base +:+ " (reading '" +:+ k +:+ "')".

(** [v.k] *)
Definition get_prop (v : jsval) (k : string) : result jsval :=
  match v with
  | None => Throw (cannot_read "undefined" k)
  | Some JNull => Throw (cannot_read "null" k)
  | Some j => Ok (own_prop j k)
  end.

(** [v?.k] *)
Definition get_prop_opt (v : jsval) (k : string) : jsval :=
  match v with
  | None | Some JNull => None
  | Some j => own_prop j k
  end.

(** [j[0]] for [j] neither [undefined] nor [null]: the first element of an
    array, the first character of a string, the property ["0"] of an object. *)
Definition first_elem (j : json) : jsval :=
  match j with
  | JArr l => head l
  | JStr (String c _) => Some (JStr (String c ""))
  | JObj m => m !! "0"
  | _ => None
  end.

(** [v[0]] *)
Definition get_first (v : jsval) : result jsval :=
  match v with
  | None => Throw (cannot_read "undefined" "0")
  | Some JNull => Throw (cannot_read "null" "0")
  | Some j => Ok (first_elem j)
  end.

(** The object literal [{k1: v1, ..., kn: vn}] as [JSON.stringify] sends it:
    a property whose value is [undefined] is left out. *)
Fixpoint json_object (fields : list (string * jsval)) : gmap string json :=
  match fields with
  | [] => ∅
  | (k, Some j) :: rest => <[k := j]> (json_object rest)
  | (_, None) :: rest => json_object rest
  end.

End Json.

(** ** The proxy (server.js)

    Outbound HTTP calls are the effect that is modelled; [console.error] and
    [console.log] output is not. *)

Module Server.
Import Json.

(** *** Configuration

    [WATSONX_PROJECT_ID] and [WATSONX_URL] are read once from the environment
    when the process starts, with baked-in defaults. *)
Record config := {
  WATSONX_PROJECT_ID : string;
  WATSONX_URL : string
}.

Definition default_config : config :=
  {| WATSONX_PROJECT_ID := "91146e4b-59e0-4c04-a826-2731457dd287";
     WATSONX_URL := "https://us-south.ml.cloud.ibm.com" |}.

(** *** The outside world

    What [fetch] resolves to: the status line, the body as [response.text()]
    returns it and as [response.json()] returns it (or the message of the
    SyntaxError it throws).  The code reads a body one way or the other,
    never both. *)
Record http_response := {
  resp_status : Z;
  resp_text : string;
  resp_json : result json
}.

(** [response.ok] *)
Definition resp_ok (r : http_response) : bool :=
  (200 <=? resp_status r) && (resp_status r <=? 299).

(** [await fetch(...)] either rejects (a network failure, with the runtime's
    message) or resolves to a response. *)
Inductive fetch_result :=
  | NetworkError (message : string)
  | Responded (r : http_response).

(** The JSON body of the request to the chat-completion endpoint, with the
    URL and the bearer token it is sent with.  [temperature] and [top_p] are
    in tenths (0.7 and 0.9). *)
Record chat_request := {
  cr_url : string;
  cr_bearer : jsval;
  cr_model_id : string;
  cr_project_id : string;
  cr_messages : list json;
  cr_max_tokens : Z;
  cr_temperature_tenths : Z;
  cr_top_p_tenths : Z
}.

(** An outbound call of the proxy.  The form body of the token request is
    [grant_type=urn:ibm:params:oauth:grant-type:apikey&apikey=<apiKey>]: it
    is determined by the key. *)
Inductive call :=
  | TokenCall (apiKey : jsval)
  | ChatCall (req : chat_request).

(** The two upstream services, as the answers they give. *)
Record upstream := {
  token_endpoint : jsval → fetch_result;
  chat_endpoint : chat_request → fetch_result
}.

(** *** Handler code: a computation reads the upstream, appends to the log
    of outbound calls, and returns or throws. *)
Definition IO (A : Type) : Type :=
  upstream → list call → result A * list call.

Definition throw {A} (message : string) : IO A := λ _ log, (Throw message, log).

Definition lift {A} (r : result A) : IO A := λ _ log, (r, log).

#[global] Instance io_ret : MRet IO := λ A a _ log, (Ok a, log).

#[global] Instance io_bind : MBind IO := λ A B k m up log,
  match m up log with
  | (Ok a, log') => k a up log'
  | (Throw e, log') => (Throw e, log')
  end.

(** [try { m } catch (error) { handler(error.message) }] *)
Definition try_catch {A} (m : IO A) (handler : string → IO A) : IO A :=
  λ up log,
    match m up log with
    | (Ok a, log') => (Ok a, log')
    | (Throw e, log') => handler e up log'
    end.

Definition settle (f : fetch_result) : result http_response :=
  match f with
  | NetworkError e => Throw e
  | Responded r => Ok r
  end.

(** Whether [String(j)] returns.  For what [JSON.parse] produces it throws
    in one case only: an object with an own property [toString], which is
    not callable and hides [Object.prototype.toString] (the inherited
    [valueOf] returns the object itself, and an own [valueOf] is not callable
    either).  An array is joined, so it converts when its elements do;
    [null] elements are left out of the join. *)
Fixpoint string_converts (j : json) : bool :=
  match j with
  | JObj m => match m !! "toString" with None => true | Some _ => false end
  | JArr l => forallb string_converts l
  | _ => true
  end.

(** Whether the template literal [`...${v}`] can be evaluated; [undefined]
    becomes the text [undefined]. *)
Definition template_ok (v : jsval) : bool :=
  match v with
  | None => true
  | Some j => string_converts j
  end.

(** The message V8 gives the TypeError of a failed conversion. *)
Definition cannot_convert : string := "Cannot convert object to primitive value".

(** [await fetch('https://iam.cloud.ibm.com/identity/token', ...)].  The
    argument [body: `grant_type=...&apikey=${apiKey}`] is evaluated first:
    when the key does not convert, the TypeError is thrown and [fetch] is
    never called. *)
Definition fetch_token (apiKey : jsval) : IO http_response :=
  λ up log,
    if template_ok apiKey
    then (settle (token_endpoint up apiKey), log ++ [TokenCall apiKey])
    else (Throw cannot_convert, log).

(** [await fetch(`${WATSONX_URL}/ml/v1/text/chat?version=2024-05-01`, ...)].
    The header is [`Bearer ${token}`], and the call is keyed by the token as
    the provider sent it.  Every token that goes into the header,
    [template_ok (cr_bearer req)], is sent, and every string is such a token.
    For an [access_token] that is an object with an own [toString] the source
    throws the TypeError in place of the call: that is an upstream whose chat
    call does not respond, [chat_endpoint] answering
    [NetworkError cannot_convert], and the entry in the log is the attempt. *)
Definition fetch_chat (req : chat_request) : IO http_response :=
  λ up log, (settle (chat_endpoint up req), log ++ [ChatCall req]).

(** *** getIAMToken *)
Definition getIAMToken (apiKey : jsval) : IO jsval :=
  response ← fetch_token apiKey;
  if negb (resp_ok response) then
    let error := resp_text response in
    throw ("IAM token error: " +:+ error)
  else
    data ← lift (resp_json response);
    lift (get_prop (Some data) "access_token").

(** What [res.status(s).json(body)] sends; [res.json(body)] sends it with
    status 200. *)
Record reply := {
  status : Z;
  body : gmap string json
}.

(** [const { apiKey, ... } = req.body]: the message V8 gives the TypeError
    when [req.body] is [undefined] or [null]. *)
Definition cannot_destructure (k base : string) : string :=
  "Cannot destructure property '" +:+ k +:+ "' of 'req.body' as it is "
  +:+ base +:+ ".".

Definition destructure (req_body : jsval) (first : string) : result json :=
  match req_body with
  | None => Throw (cannot_destructure first "undefined")
  | Some JNull => Throw (cannot_destructure first "null")
  | Some j => Ok j
  end.

(** *** POST /api/watsonx/chat *)

Definition chat_completion_request (cfg : config) (token : jsval)
    (fullMessages : list json) : chat_request :=
  {| cr_url := WATSONX_URL cfg +:+ "/ml/v1/text/chat?version=2024-05-01";
     cr_bearer := token;
     cr_model_id := "ibm/granite-3-8b-instruct";
     cr_project_id := WATSONX_PROJECT_ID cfg;
     cr_messages := fullMessages;
     cr_max_tokens := 2048;
     cr_temperature_tenths := 7;
     cr_top_p_tenths := 9 |}.

(** [[{ role: 'system', content: systemPrompt || '...' }, ...messages]] *)
Definition fullMessages (systemPrompt : jsval) (messages : list json) : list json :=
  JObj (json_object
          [("role", Some (JStr "system"));
           ("content", js_or systemPrompt (Some (JStr "You are a helpful assistant.")))])
  :: messages.

(** Lines 79 to 119: everything the handler does once the request body has
    passed the two checks. *)
Definition chat_forward (cfg : config) (apiKey systemPrompt : jsval)
    (messages : list json) : IO reply :=
  token ← getIAMToken apiKey;
  response ← fetch_chat (chat_completion_request cfg token (fullMessages systemPrompt messages));
  if negb (resp_ok response) then
    error ← lift (resp_json response);
    inner ← lift (get_prop (Some error) "error");
    let message :=
      js_or (js_or (get_prop_opt inner "message") (own_prop error "message"))
            (Some (JStr "WatsonX API call failed")) in
    mret {| status := resp_status response;
           body := json_object [("error", message)] |}
  else
    data ← lift (resp_json response);
    choices ← lift (get_prop (Some data) "choices");
    choice ← lift (get_first choices);
    message ← lift (get_prop choice "message");
    content ← lift (get_prop message "content");
    mret {| status := 200;
           body := json_object [("content", content); ("usage", own_prop data "usage")] |}.

Definition chat_handler (cfg : config) (req_body : jsval) : IO reply :=
  try_catch
    (b ← lift (destructure req_body "apiKey");
     let apiKey := own_prop b "apiKey" in
     let messages := own_prop b "messages" in
     let systemPrompt := own_prop b "systemPrompt" in
     if negb (truthy apiKey) then
       mret {| status := 400;
              body := json_object [("error", Some (JStr "API key is required"))] |}
     else
       (* an array is truthy: [!messages || !Array.isArray(messages)] lets
          through exactly the arrays *)
       match messages with
       | Some (JArr l) => chat_forward cfg apiKey systemPrompt l
       | _ =>
         mret {| status := 400;
                body := json_object [("error", Some (JStr "Messages array is required"))] |}
       end)
    (λ message,
       mret {| status := 500;
              body := json_object [("error", Some (JStr message))] |}).

(** *** POST /api/watsonx/validate *)
Definition validate_handler (req_body : jsval) : IO reply :=
  try_catch
    (b ← lift (destructure req_body "apiKey");
     let apiKey := own_prop b "apiKey" in
     if negb (truthy apiKey) then
       mret {| status := 400;
              body := json_object [("valid", Some (JBool false));
                                   ("error", Some (JStr "API key is required"))] |}
     else
       _ ← getIAMToken apiKey;
       mret {| status := 200; body := json_object [("valid", Some (JBool true))] |})
    (λ _,
       mret {| status := 401;
              body := json_object [("valid", Some (JBool false));
                                   ("error", Some (JStr "Invalid API key"))] |}).

(** Running a handler on a fresh request: nothing has been called yet. *)
Definition run {A} (m : IO A) (up : upstream) : result A * list call := m up [].

(** *** Vocabulary of the properties *)

(** Whatever the identity provider sends as [access_token] for the key goes
    into the header [`Bearer ${token}`]. *)
Definition tokens_convert (up : upstream) (apiKey : jsval) : Prop :=
  ∀ response data,
    token_endpoint up apiKey = Responded response →
    resp_json response = Ok data →
    template_ok (own_prop data "access_token") = true.

(** The calls [getIAMToken] makes for a key. *)
Definition token_calls (apiKey : jsval) : list call :=
  if template_ok apiKey then [TokenCall apiKey] else [].

(** The identity provider is asked about the key of [req_body] and accepts
    it: the body carries a truthy [apiKey] that goes into the form body, and
    the token endpoint answers the request with a success status and a JSON
    body other than [null]. *)
Definition provider_accepts (up : upstream) (req_body : jsval) : Prop :=
  ∃ b response data,
    req_body = Some b ∧ b ≠ JNull ∧
    truthy (own_prop b "apiKey") = true ∧
    template_ok (own_prop b "apiKey") = true ∧
    token_endpoint up (own_prop b "apiKey") = Responded response ∧
    resp_ok response = true ∧
    resp_json response = Ok data ∧ data ≠ JNull.

(** Every 500 reply of the chat handler carries the same body, whatever the
    request and whatever the upstream said. *)
Definition generic_500 (cfg : config) : Prop :=
  ∃ generic : gmap string json,
    ∀ up req_body rep log,
      run (chat_handler cfg req_body) up = (Ok rep, log) →
      status rep = 500 → body rep = generic.

(** An identity provider that rejects every key with the given text. *)
Definition rejecting_upstream (text : string) : upstream :=
  {| token_endpoint := λ _,
       Responded {| resp_status := 400; resp_text := text;
                    resp_json := Throw "Unexpected token" |};
     chat_endpoint := λ _, NetworkError "fetch failed" |}.

(** An upstream that accepts every key and completes every chat with the
    given data. *)
Definition answering_upstream (token : string) (data : json) : upstream :=
  {| token_endpoint := λ _,
       Responded {| resp_status := 200; resp_text := "";
                    resp_json := Ok (JObj {[ "access_token" := JStr token ]}) |};
     chat_endpoint := λ _,
       Responded {| resp_status := 200; resp_text := ""; resp_json := Ok data |} |}.

(** A completion as the chat endpoint sends it. *)
Definition sample_completion : json :=
  JObj {[ "choices" :=
            JArr [JObj {[ "message" := JObj {[ "content" := JStr "Hi" ]} ]}];
          "usage" := JObj {[ "total_tokens" := JNum 3 ]};
          "model_id" := JStr "ibm/granite-3-8b-instruct" ]}.

Definition chat_body (apiKey : string) (messages : list json) : json :=
  JObj {[ "apiKey" := JStr apiKey; "messages" := JArr messages ]}.

(** *** POST /api/auth/login

    [DEMO_USER] and [DEMO_PASSWORD] are read from the environment when the
    process starts, with baked-in defaults; either way they are strings. *)
Record credentials := {
  DEMO_USER : string;
  DEMO_PASSWORD : string
}.

Definition default_credentials : credentials :=
  {| DEMO_USER := "ibmdevday2026"; DEMO_PASSWORD := "##4456##Dft$ttCdF" |}.

(** [v === s] for a string [s] *)
Definition strict_eq_string (v : jsval) (s : string) : bool :=
  match v with
  | Some (JStr t) => String.eqb t s
  | _ => false
  end.

(** The handler is synchronous, makes no outbound call and has no [try]:
    what the destructuring throws leaves the handler. *)
Definition login_handler (creds : credentials) (req_body : jsval) : result reply :=
  match destructure req_body "username" with
  | Throw e => Throw e
  | Ok b =>
      let username := own_prop b "username" in
      let password := own_prop b "password" in
      if strict_eq_string username (DEMO_USER creds)
         && strict_eq_string password (DEMO_PASSWORD creds)
      then Ok {| status := 200;
                 body := json_object [("success", Some (JBool true));
                                      ("message", Some (JStr "Login successful"))] |}
      else Ok {| status := 401;
                 body := json_object [("success", Some (JBool false));
                                      ("message", Some (JStr "Invalid credentials"))] |}
  end.

End Server.

(** ** The client (frontend/src/App.js) *)

Module App.
Import Json.

Definition MAX_CALLS_PER_DAY : Z := 200.

(** *** Agents

    The connection parameters ([config]) are not read by any code modelled
    here and are left out. *)
Record agent := {
  id : string;
  name : string;
  description : string;
  placeholder : string;
  systemPrompt : string
}.

Module AGENTS.

Definition emailRewriter : agent :=
  {| id := "emailRewriter";
     name := "Email Rewriter Agent";
     description := "Rewrites email body in professional tone and suggests subject line";
     placeholder := "Enter your email text to rewrite...";
     systemPrompt := "You are a professional email rewriter agent. Your task is to:
1. Take the user's informal or draft email text
2. Rewrite it in a professional, clear, and polite tone
3. Suggest an appropriate subject line
4. Maintain the original intent and key information

Format your response as:
## Suggested Subject
[Your suggested subject line]

## Rewritten Email
[The professionally rewritten email body]

## Key Changes Made
- [List the main improvements you made]" |}.

Definition bauEstimate : agent :=
  {| id := "bauEstimate";
     name := "BAU Enhancement Estimate Agent";
     description := "Provides BAU enhancement estimates for development tasks";
     placeholder := "Describe the enhancement task to estimate...";
     systemPrompt := "You are a BAU (Business As Usual) Enhancement Estimation Agent for software development projects. Your task is to:
1. Analyze the enhancement request provided by the user
2. Break down the work into phases (Analysis, Development, Testing, Documentation)
3. Provide effort estimates in hours for each phase
4. Assess complexity (Low/Medium/High)
5. List assumptions and risks

Format your response as:
## Task Analysis
[Brief analysis of the enhancement request]

## Estimation Breakdown
| Phase | Effort (Hours) | Notes |
|-------|----------------|-------|
| Analysis | X-Y | [notes] |
| Development | X-Y | [notes] |
| Testing | X-Y | [notes] |
| Documentation | X-Y | [notes] |
| **Total** | **X-Y** | |

## Complexity Assessment
**Level:** [Low/Medium/High]
**Justification:** [Why this complexity level]

## Assumptions
- [List key assumptions]

## Risks
- [List potential risks]" |}.

End AGENTS.

(** *** The usage record

    The stored object [{date, emailRewriter, bauEstimate}]: the [date] field
    and the counters, keyed by agent id.  [incrementUsage] can add a counter
    for any id it is given.  The record keeps the date apart from the
    counters, and a counter is an integer: this is the object as long as the
    keys used for counters satisfy [is_agent_key] and the counters stay
    within [is_safe_integer], where JavaScript adds one exactly. *)
Record usage_record := {
  date : string;
  counts : gmap string Z
}.

(** The property names every object inherits from [Object.prototype]. *)
Definition inherited_keys : list string :=
  ["constructor"; "__proto__"; "hasOwnProperty"; "isPrototypeOf";
   "propertyIsEnumerable"; "toLocaleString"; "toString"; "valueOf";
   "__defineGetter__"; "__defineSetter__"; "__lookupGetter__";
   "__lookupSetter__"].

(** A key under which the usage object holds a counter or nothing: not
    ["date"] and not an inherited name.  The ids of [AGENTS] are such keys. *)
Definition is_agent_key (k : string) : bool :=
  bool_decide (k ∉ "date" :: inherited_keys).

(** [Number.isSafeInteger] *)
Definition is_safe_integer (n : Z) : Prop := - 2 ^ 53 < n < 2 ^ 53.

(** [usage[agentId] || 0] *)
Definition count_of (usage : usage_record) (agentId : string) : Z :=
  default 0 (counts usage !! agentId).

(** [localStorage], under its two fixed keys.  The ['agentUsage'] slot holds
    the text [JSON.stringify] made of a usage record, which [JSON.parse]
    turns back into that record: the slot is modelled as the record. *)
Record storage := {
  agentUsage : option usage_record;
  watsonxApiKey : option string
}.

(** *** Transcript and conversation history *)
Record message := {
  role : string;
  content : jsval
}.

(** The body of the POST to [/api/watsonx/chat]. *)
Record chat_call := {
  cc_apiKey : string;
  cc_systemPrompt : string;
  cc_messages : list message
}.

(** The state of an [AgentChat] component ([messagesEndRef] left out). *)
Record chat_state := {
  messages : list message;
  input : string;
  isLoading : bool;
  error : string;
  conversationHistory : list message
}.

(** The browser and the mounted components: the store, the [alert] boxes
    shown and the chat requests sent (oldest first), the state of
    [Dashboard], and the state of [AgentChat], which is mounted once an agent
    is active. *)
Record state := {
  localStorage : storage;
  alerts : list string;
  requests : list chat_call;
  activeAgent : option agent;
  usage : usage_record;
  apiKey : string;
  chat : option chat_state
}.

Definition set_localStorage (v : storage) (st : state) : state :=
  {| localStorage := v; alerts := alerts st; requests := requests st;
     activeAgent := activeAgent st; usage := usage st; apiKey := apiKey st;
     chat := chat st |}.

Definition set_alerts (v : list string) (st : state) : state :=
  {| localStorage := localStorage st; alerts := v; requests := requests st;
     activeAgent := activeAgent st; usage := usage st; apiKey := apiKey st;
     chat := chat st |}.

Definition set_requests (v : list chat_call) (st : state) : state :=
  {| localStorage := localStorage st; alerts := alerts st; requests := v;
     activeAgent := activeAgent st; usage := usage st; apiKey := apiKey st;
     chat := chat st |}.

Definition set_activeAgent (v : option agent) (st : state) : state :=
  {| localStorage := localStorage st; alerts := alerts st; requests := requests st;
     activeAgent := v; usage := usage st; apiKey := apiKey st;
     chat := chat st |}.

Definition set_usage (v : usage_record) (st : state) : state :=
  {| localStorage := localStorage st; alerts := alerts st; requests := requests st;
     activeAgent := activeAgent st; usage := v; apiKey := apiKey st;
     chat := chat st |}.

Definition set_apiKey (v : string) (st : state) : state :=
  {| localStorage := localStorage st; alerts := alerts st; requests := requests st;
     activeAgent := activeAgent st; usage := usage st; apiKey := v;
     chat := chat st |}.

Definition set_chat (v : option chat_state) (st : state) : state :=
  {| localStorage := localStorage st; alerts := alerts st; requests := requests st;
     activeAgent := activeAgent st; usage := usage st; apiKey := apiKey st;
     chat := v |}.

(** *** Code that runs in the browser: a state transformer with a result *)
Definition UI (A : Type) : Type := state → A * state.

#[global] Instance ui_ret : MRet UI := λ A a st, (a, st).

#[global] Instance ui_bind : MBind UI := λ A B k m st,
  let (a, st') := m st in k a st'.

Definition gets {A} (f : state → A) : UI A := λ st, (f st, st).

Definition modify (f : state → state) : UI unit := λ st, (tt, f st).

(** [localStorage.getItem('agentUsage')], parsed *)
Definition getItem_agentUsage : UI (option usage_record) :=
  gets (λ st, agentUsage (localStorage st)).

(** [localStorage.setItem('agentUsage', JSON.stringify(usage))] *)
Definition setItem_agentUsage (usage : usage_record) : UI unit :=
  modify (λ st, set_localStorage
                  {| agentUsage := Some usage;
                     watsonxApiKey := watsonxApiKey (localStorage st) |} st).

(** [alert(text)] *)
Definition alert (text : string) : UI unit :=
  modify (λ st, set_alerts (alerts st ++ [text]) st).

(** [fetch('/api/watsonx/chat', ...)] *)
Definition fetch_chat (req : chat_call) : UI unit :=
  modify (λ st, set_requests (requests st ++ [req]) st).

(** *** Usage tracking

    [getTodayKey()] reads the clock: the UTC date it returns is the argument
    [today] of every function that calls it. *)
Definition fresh_usage (today : string) : usage_record :=
  {| date := today;
     counts := {[ "emailRewriter" := 0; "bauEstimate" := 0 ]} |}.

Definition getUsage (today : string) : UI usage_record :=
  stored ← getItem_agentUsage;
  match stored with
  | Some data =>
      if decide (date data = today) then mret data
      else mret (fresh_usage today)
  | None => mret (fresh_usage today)
  end.

Definition saveUsage (usage : usage_record) : UI unit :=
  setItem_agentUsage usage.

(** [usage[agentId] = (usage[agentId] || 0) + 1], on the counters: this is
    the assignment for an [agentId] with [is_agent_key] and a count with
    [is_safe_integer].  At ["date"] the source appends [1] to the date, and
    past 2^53 its sum is the count it had. *)
Definition incrementUsage (today agentId : string) : UI usage_record :=
  usage ← getUsage today;
  let usage' :=
    {| date := date usage;
       counts := <[agentId := count_of usage agentId + 1]> (counts usage) |} in
  _ ← saveUsage usage';
  mret usage'.

(** *** Dashboard *)

(** [activeAgent?.id === agent.id] *)
Definition is_active (active : option agent) (a : agent) : bool :=
  match active with
  | Some b => bool_decide (id b = id a)
  | None => false
  end.

Definition limit_alert (a : agent) : string :=
  "Daily limit of 200 calls reached for " +:+ name a.

Definition handleSelectAgent (today : string) (a : agent) : UI unit :=
  active ← gets activeAgent;
  if is_active active a then mret tt
  else
    currentUsage ← getUsage today;
    if MAX_CALLS_PER_DAY <=? count_of currentUsage (id a) then
      alert (limit_alert a)
    else
      modify (set_activeAgent (Some a)).

Definition handleIncrement (today agentId : string) : UI unit :=
  newUsage ← incrementUsage today agentId;
  modify (set_usage newUsage).

(** [ApiKeyConfig]'s [handleSave] and [handleClear], as far as they reach
    outside the component: [onApiKeyChange(key)] and the stored key. *)
Definition changeApiKey (key : string) : UI unit :=
  modify (λ st,
    set_apiKey key
      (set_localStorage
         {| agentUsage := agentUsage (localStorage st);
            watsonxApiKey := if String.eqb key "" then None else Some key |} st)).

(** *** AgentChat *)

Definition initial_chat : chat_state :=
  {| messages := []; input := ""; isLoading := false; error := "";
     conversationHistory := [] |}.

Definition greeting (a : agent) : message :=
  {| role := "assistant";
     content := Some (JStr ("Hello! I'm the " +:+ name a +:+ ". " +:+ description a
                            +:+ ". How can I help you today?")) |}.

(** The effect on [[agent.id, agent.name, agent.description]] *)
Definition agent_effect (a : agent) (c : chat_state) : chat_state :=
  {| conversationHistory := [];
     messages := [greeting a];
     error := "";
     input := input c;
     isLoading := isLoading c |}.

Definition effect_deps (a : agent) : string * string * string :=
  (id a, name a, description a).

(** What React does once a handler of [Dashboard] has run: [AgentChat] is
    rendered for the active agent, mounted first if it was not there, and the
    effect runs on mount and whenever one of its dependencies has changed
    since the previous render ([before] is the agent of that render). *)
Definition commit (before : option agent) : UI unit :=
  modify (λ st,
    match activeAgent st with
    | None => st
    | Some a =>
        match before, chat st with
        | Some b, Some c =>
            if decide (effect_deps a = effect_deps b) then st
            else set_chat (Some (agent_effect a c)) st
        | _, _ => set_chat (Some (agent_effect a initial_chat)) st
        end
    end).

(** [onSelect(agent)]: the handler, and the rendering that follows it. *)
Definition select (today : string) (a : agent) : UI unit :=
  before ← gets activeAgent;
  _ ← handleSelectAgent today a;
  commit before.

(** [AgentCard]: the button is disabled when the usage the dashboard shows
    leaves nothing of the daily limit. *)
Definition isDisabled (usage : usage_record) (a : agent) : bool :=
  let remaining := MAX_CALLS_PER_DAY - count_of usage (id a) in
  remaining <=? 0.

(** A click on an agent card's button. *)
Definition click (today : string) (a : agent) : UI unit :=
  shown ← gets usage;
  if isDisabled shown a then mret tt else select today a.

(** [array.slice(-n)] *)
Definition slice_last {A} (n : nat) (l : list A) : list A :=
  drop (length l - n) l.

(** Lines 320 to 329: push the exchange, keep the last 10 messages. *)
Definition remember (history : list message) (userMessage : string)
    (response : jsval) : list message :=
  let pushed := history ++ [ {| role := "user"; content := Some (JStr userMessage) |};
                             {| role := "assistant"; content := response |} ] in
  if (10 <? length pushed)%nat then slice_last 10 pushed else pushed.

Definition append_message (m : message) (c : chat_state) : chat_state :=
  {| messages := messages c ++ [m]; input := input c; isLoading := isLoading c;
     error := error c; conversationHistory := conversationHistory c |}.

(** U+274C, the cross mark that opens the error message of the transcript *)
Definition cross_mark : string :=
  String (Ascii.ascii_of_nat 226) (String (Ascii.ascii_of_nat 157) (String (Ascii.ascii_of_nat 140) "")).

Definition newline : string := String (Ascii.ascii_of_nat 10) "".

Definition error_message (text : string) : message :=
  {| role := "assistant";
     content := Some (JStr (cross_mark +:+ " Error: " +:+ text +:+ newline +:+ newline
                            +:+ "Please check your API key and try again.")) |}.

(** *** Rendering the transcript

    Lines 415 to 430.  The message of an assistant is rendered through
    [msg.content.replace(...)], which only a string has; the message of a
    user is rendered as a child of the element, which can be anything but an
    object.  When a message does not render, the render throws, and React,
    with no error boundary in the application, removes the whole tree. *)
Definition is_string (v : jsval) : bool :=
  match v with
  | Some (JStr _) => true
  | _ => false
  end.

Fixpoint valid_child (j : json) : bool :=
  match j with
  | JObj _ => false
  | JArr l => forallb valid_child l
  | _ => true
  end.

Definition renders_message (m : message) : bool :=
  if String.eqb (role m) "assistant" then is_string (content m)
  else match content m with
       | Some j => valid_child j
       | None => true
       end.

Definition renders (c : chat_state) : bool :=
  forallb renders_message (messages c).

(** [handleSubmit] is asynchronous.  It runs up to its [await], which leaves
    one of these pending, and resumes when the awaited promise settles. *)
Inductive pending :=
  | AwaitCall (userMessage : string)
  | AwaitTimer (agentId userMessage : string).

(** How [await callWatsonX(...)] ends: with [data.content] of the proxy's
    reply, or with a thrown [Error] (the proxy answered with an error status,
    or the fetch failed). *)
Inductive call_outcome :=
  | Returned (response : jsval)
  | Threw (message : string).

Section AgentChat.

(** [String.prototype.trim] *)
Variable trim : string → string.

(** The canned text of demo mode (lines 336 to 385), from the agent id and
    the user's message. *)
Variable demoResponse : string → string → string.

(** [handleSubmit], from the submit event to the [await]; [None] when the
    guard returns at once.  [callWatsonX] has sent its request when it
    reaches its own [await]. *)
Definition handleSubmit (today : string) : UI (option pending) :=
  st ← gets (λ st, st);
  match activeAgent st, chat st with
  | Some a, Some c =>
      if String.eqb (trim (input c)) "" || isLoading c then mret None
      else
        let userMessage := trim (input c) in
        _ ← modify (set_chat (Some
               {| input := "";
                  error := "";
                  messages := messages c ++ [ {| role := "user"; content := Some (JStr userMessage) |} ];
                  isLoading := true;
                  conversationHistory := conversationHistory c |}));
        _ ← handleIncrement today (id a);
        if negb (String.eqb (apiKey st) "") then
          _ ← fetch_chat
                {| cc_apiKey := apiKey st;
                   cc_systemPrompt := systemPrompt a;
                   cc_messages := conversationHistory c
                                  ++ [ {| role := "user"; content := Some (JStr userMessage) |} ] |};
          mret (Some (AwaitCall userMessage))
        else
          mret (Some (AwaitTimer (id a) userMessage))
  | _, _ => mret None
  end.

Definition set_isLoading (b : bool) (c : chat_state) : chat_state :=
  {| messages := messages c; input := input c; isLoading := b;
     error := error c; conversationHistory := conversationHistory c |}.

(** The rest of [handleSubmit], on the component's current state: the state
    it sets.  The component is rendered from that state next, which goes
    through when [renders] holds of it. *)
Definition resume (p : pending) (outcome : call_outcome) (c : chat_state) : chat_state :=
  set_isLoading false
    match p, outcome with
    | AwaitCall userMessage, Returned response =>
        append_message {| role := "assistant"; content := response |}
          {| conversationHistory := remember (conversationHistory c) userMessage response;
             messages := messages c; input := input c; isLoading := isLoading c;
             error := error c |}
    | AwaitCall _, Threw text =>
        append_message (error_message text)
          {| error := text;
             messages := messages c; input := input c; isLoading := isLoading c;
             conversationHistory := conversationHistory c |}
    | AwaitTimer agentId userMessage, _ =>
        append_message
          {| role := "assistant"; content := Some (JStr (demoResponse agentId userMessage)) |} c
    end.

Definition handleSubmit_resume (p : pending) (outcome : call_outcome) : UI unit :=
  modify (λ st, set_chat (resume p outcome <$> chat st) st).

(** *** What can happen to a dashboard

    [Settle] resumes a [handleSubmit]; it is allowed for any pending call
    and any outcome, at any time, which covers every interleaving of answers
    with clicks and key strokes. *)
Inductive event :=
  | Select (a : agent)
  | Typing (text : string)
  | Submit
  | Settle (p : pending) (outcome : call_outcome)
  | ChangeApiKey (key : string).

Definition setInput (text : string) (c : chat_state) : chat_state :=
  {| messages := messages c; input := text; isLoading := isLoading c;
     error := error c; conversationHistory := conversationHistory c |}.

(** One event, at a moment when the UTC date is [today]. *)
Definition step (today : string) (e : event) (st : state) : state :=
  match e with
  | Select a => snd (click today a st)
  | Typing text => set_chat (setInput text <$> chat st) st
  | Submit => snd (handleSubmit today st)
  | Settle p outcome => snd (handleSubmit_resume p outcome st)
  | ChangeApiKey key => snd (changeApiKey key st)
  end.

Fixpoint steps (es : list (string * event)) (st : state) : state :=
  match es with
  | [] => st
  | (today, e) :: es' => steps es' (step today e st)
  end.

End AgentChat.

(** [Dashboard] as it mounts, at UTC date [today], over the store [ls]. *)
Definition initial_state (today : string) (ls : storage) : state :=
  let st0 :=
    {| localStorage := ls; alerts := []; requests := [];
       activeAgent := None; usage := fresh_usage today;
       apiKey := default "" (watsonxApiKey ls); chat := None |} in
  set_usage (fst (getUsage today st0)) st0.

(** *** Vocabulary of the properties *)

(** Selecting [a] is refused with a notification: the active agent and the
    requests sent are as before, and one [alert] has been shown. *)
Definition refused_with_notification (today : string) (a : agent) (st : state) : Prop :=
  let st' := snd (select today a st) in
  activeAgent st' = activeAgent st ∧
  requests st' = requests st ∧
  alerts st' = alerts st ++ [limit_alert a].

(** The two messages one exchange adds to the history. *)
Definition turns (exchange : string * jsval) : list message :=
  [ {| role := "user"; content := Some (JStr exchange.1) |};
    {| role := "assistant"; content := exchange.2 |} ].


(** The bound on the history, for a component that may not be mounted. *)
Definition history_bounded (st : state) : Prop :=
  match chat st with
  | Some c => (length (conversationHistory c) ≤ 10)%nat
  | None => True
  end.

(** Instances of [trim] and [demoResponse] for the examples: [trim_ascii]
    strips the six ASCII white-space characters. *)
Fixpoint trim_start (s : string) : string :=
  match s with
  | String c s' => if Ascii.is_space c then trim_start s' else s
  | EmptyString => EmptyString
  end.

Definition trim_ascii (s : string) : string :=
  String.rev (trim_start (String.rev (trim_start s))).

Definition demo_echo (agentId userMessage : string) : string :=
  "[" +:+ agentId +:+ "] " +:+ userMessage.

(** A store whose usage record, dated [today], has [n] calls of the email
    rewriter. *)
Definition store_with (today : string) (n : Z) : storage :=
  {| agentUsage := Some {| date := today;
                           counts := {[ "emailRewriter" := n; "bauEstimate" := 0 ]} |};
     watsonxApiKey := None |}.

(** A dashboard on which the email rewriter is active, over that store. *)
Definition session_at (today : string) (n : Z) : state :=
  set_chat (Some (agent_effect AGENTS.emailRewriter initial_chat))
    (set_activeAgent (Some AGENTS.emailRewriter)
       (initial_state today (store_with today n))).

(** The same dashboard after another tab has written [stored] calls to the
    store: it still shows [shown]. *)
Definition stale_session (today : string) (shown stored : Z) : state :=
  set_localStorage (store_with today stored) (session_at today shown).

(** *** What the client makes of the proxy's answers *)

(** What a [fetch] of the proxy resolves to, as far as the client reads it:
    [response.ok] and what [response.json()] returns or throws. *)
Record proxy_response := {
  ok : bool;
  json_body : result json
}.

Inductive fetched :=
  | Rejected (message : string)
  | Resolved (r : proxy_response).

Section CallWatsonX.

(** [String(v)], which [new Error(v)] applies to its argument. *)
Variable ToString : json → string.

(** [callWatsonX] from the moment its [fetch] settles (lines 104 to 110).
    A TypeError carries the message of a V8 browser. *)
Definition callWatsonX_settle (f : fetched) : call_outcome :=
  match f with
  | Rejected e => Threw e
  | Resolved response =>
      match json_body response with
      | Throw e => Threw e
      | Ok data =>
          if negb (ok response) then
            match get_prop (Some data) "error" with
            | Throw e => Threw e
            | Ok e =>
                Threw (ToString (default JNull
                         (js_or e (Some (JStr "WatsonX API call failed")))))
            end
          else
            match get_prop (Some data) "content" with
            | Throw e => Threw e
            | Ok content => Returned content
            end
      end
  end.

End CallWatsonX.

(** [validateApiKey] from the moment its [fetch] settles (lines 124 to 128):
    [data.valid], or [false] when anything was thrown. *)
Definition validateApiKey_settle (f : fetched) : jsval :=
  match f with
  | Rejected _ => Some (JBool false)
  | Resolved response =>
      match json_body response with
      | Throw _ => Some (JBool false)
      | Ok data =>
          match get_prop (Some data) "valid" with
          | Throw _ => Some (JBool false)
          | Ok valid => valid
          end
      end
  end.

(** *** LoginPage and App *)
Module Login.

(** The state of [LoginPage]. *)
Record page := {
  username : string;
  password : string;
  error : jsval;
  isLoading : bool
}.

(** The ['isLoggedIn'] item of [sessionStorage], the state of [App], and the
    login page it shows while nobody is logged in. *)
Record app := {
  sessionItem : option string;
  isLoggedIn : bool;
  loginPage : page
}.

Definition initial_page : page :=
  {| username := ""; password := ""; error := Some (JStr ""); isLoading := false |}.

(** [App] as it mounts: [sessionStorage.getItem('isLoggedIn') === 'true']. *)
Definition mount (item : option string) : app :=
  {| sessionItem := item;
     isLoggedIn := bool_decide (item = Some "true");
     loginPage := initial_page |}.

(** The body of the POST to [/api/auth/login]. *)
Definition login_request (p : page) : json :=
  JObj (json_object [("username", Some (JStr (username p)));
                     ("password", Some (JStr (password p)))]).

(** [handleSubmit] of [LoginPage] up to its [fetch]. *)
Definition handleSubmit_start (a : app) : app :=
  {| sessionItem := sessionItem a;
     isLoggedIn := isLoggedIn a;
     loginPage := {| username := username (loginPage a);
                     password := password (loginPage a);
                     error := Some (JStr "");
                     isLoading := true |} |}.

(** The [try] block once the [fetch] has settled: [Ok None] when the login
    went through, [Ok (Some e)] when [setError(e)] is reached, [Throw] when
    something was thrown. *)
Definition attempt (f : fetched) : result (option jsval) :=
  match f with
  | Rejected e => Throw e
  | Resolved response =>
      match json_body response with
      | Throw e => Throw e
      | Ok data =>
          let refused :=
            match get_prop (Some data) "message" with
            | Throw e => Throw e
            | Ok m => Ok (Some (js_or m (Some (JStr "Invalid credentials"))))
            end in
          if ok response then
            match get_prop (Some data) "success" with
            | Throw e => Throw e
            | Ok success => if truthy success then Ok None else refused
            end
          else refused
      end
  end.

Definition set_error (e : jsval) (p : page) : page :=
  {| username := username p; password := password p; error := e;
     isLoading := isLoading p |}.

Definition set_isLoading (b : bool) (p : page) : page :=
  {| username := username p; password := password p; error := error p;
     isLoading := b |}.

(** The rest of [handleSubmit], with [handleLogin] of [App]. *)
Definition handleSubmit_finish (f : fetched) (a : app) : app :=
  match attempt f with
  | Ok None =>
      {| sessionItem := Some "true";
         isLoggedIn := true;
         loginPage := set_isLoading false (loginPage a) |}
  | Ok (Some e) =>
      {| sessionItem := sessionItem a;
         isLoggedIn := isLoggedIn a;
         loginPage := set_isLoading false (set_error e (loginPage a)) |}
  | Throw _ =>
      {| sessionItem := sessionItem a;
         isLoggedIn := isLoggedIn a;
         loginPage := set_isLoading false
                        (set_error (Some (JStr "Login failed. Please try again."))
                           (loginPage a)) |}
  end.

Definition handleLogout (a : app) : app :=
  {| sessionItem := None; isLoggedIn := false; loginPage := initial_page |}.

End Login.

End App.

(** ** The client and the proxy together

    The client's request bodies as [express.json()] hands them to a handler,
    and the handler's reply as the client's [fetch] resolves to it:
    [JSON.stringify] followed by [JSON.parse] gives back the JSON value. *)

Module Wire.
Import Json.

(** [{role, content}]; a [content] that is [undefined] is left out. *)
Definition message_json (m : App.message) : json :=
  JObj (json_object [("role", Some (JStr (App.role m)));
                     ("content", App.content m)]).

(** The body [callWatsonX] sends. *)
Definition chat_call_body (req : App.chat_call) : json :=
  JObj (json_object
          [("apiKey", Some (JStr (App.cc_apiKey req)));
           ("systemPrompt", Some (JStr (App.cc_systemPrompt req)));
           ("messages", Some (JArr (message_json <$> App.cc_messages req)))]).

(** The body [validateApiKey] sends. *)
Definition validate_body (apiKey : string) : json :=
  JObj (json_object [("apiKey", Some (JStr apiKey))]).

(** A reply of the proxy, as the client's [fetch] resolves to it. *)
Definition deliver (rep : Server.reply) : App.fetched :=
  App.Resolved
    {| App.ok := (200 <=? Server.status rep) && (Server.status rep <=? 299);
       App.json_body := Ok (JObj (Server.body rep)) |}.

(** An instance of [ToString] for the examples.  Only its value on a
    string matters: there it is the string, as in JavaScript. *)
Definition to_string_sample (j : json) : string :=
  match j with
  | JStr s => s
  | _ => "[object Object]"
  end.

End Wire.

(** * Properties *)

(** ** The proxy *)

Section ServerProperties.
Import Json Server.

Lemma io_bind_run {A B} (m : IO A) (k : A → IO B) up log :
  (m ≫= k) up log =
  match m up log with
  | (Ok a, log') => k a up log'
  | (Throw e, log') => (Throw e, log')
  end.
Proof. reflexivity. Qed.

(** The guard on [messages] is the test for an array. *)
Lemma messages_guard (v : jsval) :
  negb (truthy v) || negb (isArray v) = false ↔ ∃ l, v = Some (JArr l).
Proof.
  split.
  - destruct v as [[]|]; simpl; intros H; try discriminate; eauto.
    + destruct b; discriminate.
    + destruct (n =? 0); discriminate.
    + destruct (String.eqb s ""); discriminate.
  - intros [l ->]. reflexivity.
Qed.

Lemma json_null_dec (b : json) : {b = JNull} + {b ≠ JNull}.
Proof. destruct b; first [by left | by right]. Qed.

Lemma destructure_ok (b : json) k : b ≠ JNull → destructure (Some b) k = Ok b.
Proof. destruct b; intros H; try reflexivity. contradiction. Qed.

(** C3: a chat request whose body has no (truthy) [apiKey], or whose
    [messages] is missing or not an array, is answered with status 400 and
    the log of outbound calls stays empty: neither the token endpoint nor the
    chat-completion endpoint has been called.  A missing field reads as
    [undefined], which is neither truthy nor an array. *)
Theorem chat_rejects_malformed_request cfg up (b : json) :
  b ≠ JNull →
  truthy (own_prop b "apiKey") = false ∨ isArray (own_prop b "messages") = false →
  ∃ rep, run (chat_handler cfg (Some b)) up = (Ok rep, []) ∧ status rep = 400.
Proof.
  intros Hb Hbad.
  unfold run, chat_handler, try_catch. rewrite io_bind_run.
  unfold lift. rewrite (destructure_ok _ _ Hb).
  destruct (truthy (own_prop b "apiKey")) eqn:Hkey; simpl.
  - destruct Hbad as [|Harr]; [discriminate|].
    destruct (own_prop b "messages") as [[]|]; simpl in *;
      try discriminate; eexists; split; reflexivity.
  - eexists; split; reflexivity.
Qed.

Lemma chat_rejects_malformed_request_witness :
  ∃ rep, run (chat_handler default_config (Some (JObj {[ "messages" := JArr [] ]})))
             (rejecting_upstream "no") = (Ok rep, []) ∧ status rep = 400.
Proof.
  apply chat_rejects_malformed_request; [discriminate | left; reflexivity].
Defined.

(** [getIAMToken] makes the calls of [token_calls], whatever comes of it. *)
Lemma getIAMToken_log apiKey up log :
  getIAMToken apiKey up log =
  (fst (run (getIAMToken apiKey) up), log ++ token_calls apiKey).
Proof.
  unfold run, getIAMToken, token_calls. rewrite !io_bind_run. unfold fetch_token.
  destruct (template_ok apiKey); [|by rewrite app_nil_r].
  destruct (settle (token_endpoint up apiKey)) as [response|e]; [|reflexivity].
  destruct (negb (resp_ok response)); [reflexivity|].
  rewrite !io_bind_run. unfold lift.
  destruct (resp_json response); reflexivity.
Qed.

Lemma getIAMToken_calls apiKey up :
  (run (getIAMToken apiKey) up).2 = token_calls apiKey.
Proof. unfold run at 1. by rewrite getIAMToken_log. Qed.

Lemma getIAMToken_run apiKey up r log :
  run (getIAMToken apiKey) up = (r, log) →
  ∀ log0, getIAMToken apiKey up log0 = (r, log0 ++ log).
Proof.
  intros H log0. rewrite getIAMToken_log, <- (getIAMToken_calls apiKey up), H. reflexivity.
Qed.

(** A request that passes the two checks is handed to [chat_forward], and
    what that throws is caught. *)
Lemma chat_handler_forwards cfg up (b : json) l :
  b ≠ JNull →
  truthy (own_prop b "apiKey") = true →
  own_prop b "messages" = Some (JArr l) →
  run (chat_handler cfg (Some b)) up =
  match run (chat_forward cfg (own_prop b "apiKey") (own_prop b "systemPrompt") l) up with
  | (Ok rep, log) => (Ok rep, log)
  | (Throw e, log) =>
      (Ok {| status := 500; body := {[ "error" := JStr e ]} |}, log)
  end.
Proof.
  intros Hb Hkey Hmsg.
  unfold run, chat_handler, try_catch. rewrite io_bind_run.
  unfold lift. rewrite (destructure_ok _ _ Hb), Hkey, Hmsg. simpl.
  destruct (chat_forward _ _ _ _ up []) as [[rep|e] log]; reflexivity.
Qed.

(** C5: when the request carries a key and a message array, the token
    exchange succeeds and the chat-completion endpoint answers with a
    success status and a body in which [choices[0].message.content] is
    [text], the proxy answers 200 with a body whose [content] is exactly
    [text], whose [usage] is the upstream's [usage] (absent when the
    upstream has none), and which has no other field. *)
Theorem chat_relays_first_completion cfg up (b : json) l token log0
    response data choices choice message text :
  b ≠ JNull →
  truthy (own_prop b "apiKey") = true →
  own_prop b "messages" = Some (JArr l) →
  run (getIAMToken (own_prop b "apiKey")) up = (Ok token, log0) →
  chat_endpoint up
    (chat_completion_request cfg token (fullMessages (own_prop b "systemPrompt") l))
    = Responded response →
  resp_ok response = true →
  resp_json response = Ok data →
  own_prop data "choices" = Some choices →
  first_elem choices = Some choice →
  own_prop choice "message" = Some message →
  own_prop message "content" = Some text →
  ∃ rep log,
    run (chat_handler cfg (Some b)) up = (Ok rep, log) ∧
    status rep = 200 ∧
    body rep !! "content" = Some text ∧
    body rep !! "usage" = own_prop data "usage" ∧
    ∀ k, k ≠ "content" → k ≠ "usage" → body rep !! k = None.
Proof.
  intros Hb Hkey Hmsg Htok Hchat Hok Hjson Hchoices Hfirst Hmessage Hcontent.
  rewrite (chat_handler_forwards _ _ _ _ Hb Hkey Hmsg).
  unfold run, chat_forward. rewrite io_bind_run.
  rewrite (getIAMToken_run _ _ _ _ Htok). rewrite io_bind_run.
  unfold fetch_chat. rewrite Hchat. simpl settle. cbv iota beta.
  rewrite Hok. cbn [negb].
  assert (Hdata : get_prop (Some data) "choices" = Ok (Some choices)).
  { destruct data; simpl in *; try discriminate. by rewrite Hchoices. }
  assert (Hc0 : get_first (Some choices) = Ok (Some choice)).
  { destruct choices; simpl in *; try discriminate; by rewrite Hfirst. }
  assert (Hm : get_prop (Some choice) "message" = Ok (Some message)).
  { destruct choice; simpl in *; try discriminate. by rewrite Hmessage. }
  assert (Hc : get_prop (Some message) "content" = Ok (Some text)).
  { destruct message; simpl in *; try discriminate. by rewrite Hcontent. }
  rewrite !io_bind_run. unfold lift. rewrite Hjson. cbv iota beta.
  rewrite !io_bind_run, Hdata. cbv iota beta.
  rewrite !io_bind_run, Hc0. cbv iota beta.
  rewrite !io_bind_run, Hm. cbv iota beta.
  rewrite !io_bind_run, Hc. cbv iota beta.
  eexists _, _. split; [reflexivity|]. simpl status. simpl body.
  split; [reflexivity|]. split; [by rewrite lookup_insert_eq|].
  split.
  - rewrite lookup_insert_ne by done.
    destruct (own_prop data "usage"); simpl.
    + by rewrite lookup_insert_eq.
    + done.
  - intros k Hk1 Hk2. rewrite lookup_insert_ne by done.
    destruct (own_prop data "usage"); simpl.
    + by rewrite lookup_insert_ne.
    + done.
Qed.

Lemma chat_relays_first_completion_witness :
  ∃ rep log,
    run (chat_handler default_config (Some (chat_body "key" [])))
        (answering_upstream "token" sample_completion) = (Ok rep, log) ∧
    status rep = 200 ∧
    body rep !! "content" = Some (JStr "Hi") ∧
    body rep !! "usage" = own_prop sample_completion "usage" ∧
    ∀ k, k ≠ "content" → k ≠ "usage" → body rep !! k = None.
Proof.
  apply (chat_relays_first_completion default_config
           (answering_upstream "token" sample_completion)
           (chat_body "key" []) []
           (Some (JStr "token")) [TokenCall (Some (JStr "key"))]
           {| resp_status := 200; resp_text := ""; resp_json := Ok sample_completion |}
           sample_completion
           (JArr [JObj {[ "message" := JObj {[ "content" := JStr "Hi" ]} ]}])
           (JObj {[ "message" := JObj {[ "content" := JStr "Hi" ]} ]})
           (JObj {[ "content" := JStr "Hi" ]}) (JStr "Hi"));
    first [discriminate | reflexivity].
Defined.

Lemma getIAMToken_unconvertible apiKey up :
  template_ok apiKey = false →
  run (getIAMToken apiKey) up = (Throw cannot_convert, []).
Proof.
  intros Hok. unfold run, getIAMToken. rewrite io_bind_run.
  unfold fetch_token. by rewrite Hok.
Qed.

(** The chat handler calls the token endpoint at most once and then the
    chat-completion endpoint at most once; it calls nothing exactly when the
    key does not go into the form body. *)
Lemma chat_forward_log cfg apiKey systemPrompt l up r log :
  run (chat_forward cfg apiKey systemPrompt l) up = (r, log) →
  (template_ok apiKey = false ∧ log = []) ∨
  (template_ok apiKey = true ∧
   (log = [TokenCall apiKey] ∨ ∃ req, log = [TokenCall apiKey; ChatCall req])).
Proof.
  destruct (template_ok apiKey) eqn:Hok.
  2:{ unfold run, chat_forward. rewrite io_bind_run.
      rewrite (getIAMToken_run _ _ _ _ (getIAMToken_unconvertible _ up Hok)).
      intros [= _ <-]. by left. }
  unfold run, chat_forward. rewrite io_bind_run, getIAMToken_log.
  unfold token_calls. rewrite Hok.
  destruct (run (getIAMToken apiKey) up) as [[token|e] log0]; simpl fst; cbv iota beta.
  2:{ intros [= _ <-]. right. split; [done|]. by left. }
  rewrite io_bind_run. unfold fetch_chat.
  destruct (settle _) as [response|e]; cbv iota beta.
  2:{ intros [= _ <-]. right. split; [done|]. right. by eexists. }
  intros H. right. split; [done|]. right. eexists.
  destruct (negb (resp_ok response));
    repeat (rewrite io_bind_run in H; unfold lift in H;
            match type of H with
            | context [match ?x with Ok _ => _ | Throw _ => _ end] => destruct x
            end; cbv iota beta in H);
    by injection H as _ <-.
Qed.

Lemma getIAMToken_rejected apiKey up r :
  template_ok apiKey = true →
  token_endpoint up apiKey = Responded r →
  resp_ok r = false →
  run (getIAMToken apiKey) up =
  (Throw ("IAM token error: " +:+ resp_text r), [TokenCall apiKey]).
Proof.
  intros Hconv Hr Hok. unfold run, getIAMToken. rewrite io_bind_run.
  unfold fetch_token. rewrite Hconv, Hr. simpl. by rewrite Hok.
Qed.

Lemma getIAMToken_unreachable apiKey up e :
  template_ok apiKey = true →
  token_endpoint up apiKey = NetworkError e →
  run (getIAMToken apiKey) up = (Throw e, [TokenCall apiKey]).
Proof.
  intros Hconv Hr. unfold run, getIAMToken. rewrite io_bind_run.
  unfold fetch_token. by rewrite Hconv, Hr.
Qed.

(** C4, as the code has it: whatever is thrown while the external calls are
    made is caught and answered with status 500, and the body's [error] is
    the message of what was thrown.  When the identity provider rejects the
    key, that message is ["IAM token error: "] followed by the text the
    provider sent; when the key cannot be written into the form body, it is
    the TypeError's message and no call has been made.  Nothing is retried:
    otherwise the token endpoint has been called once and the
    chat-completion endpoint at most once.  The provider's tokens are taken
    to go into the Authorization header, as every string does. *)
Theorem chat_exception_becomes_500 cfg up (b : json) l e log :
  b ≠ JNull →
  truthy (own_prop b "apiKey") = true →
  own_prop b "messages" = Some (JArr l) →
  tokens_convert up (own_prop b "apiKey") →
  run (chat_forward cfg (own_prop b "apiKey") (own_prop b "systemPrompt") l) up
    = (Throw e, log) →
  run (chat_handler cfg (Some b)) up
    = (Ok {| status := 500; body := {[ "error" := JStr e ]} |}, log) ∧
  (template_ok (own_prop b "apiKey") = false → e = cannot_convert ∧ log = []) ∧
  (template_ok (own_prop b "apiKey") = true →
   log = [TokenCall (own_prop b "apiKey")] ∨
   ∃ req, log = [TokenCall (own_prop b "apiKey"); ChatCall req]) ∧
  ∀ r, template_ok (own_prop b "apiKey") = true →
       token_endpoint up (own_prop b "apiKey") = Responded r →
       resp_ok r = false →
       e = "IAM token error: " +:+ resp_text r ∧
       log = [TokenCall (own_prop b "apiKey")].
Proof.
  intros Hb Hkey Hmsg _ Hthrow. split; [|split; [|split]].
  - by rewrite (chat_handler_forwards _ _ _ _ Hb Hkey Hmsg), Hthrow.
  - intros Hconv. revert Hthrow.
    unfold run, chat_forward. rewrite io_bind_run.
    rewrite (getIAMToken_run _ _ _ _ (getIAMToken_unconvertible _ up Hconv)).
    by intros [= <- <-].
  - intros Hconv.
    destruct (chat_forward_log _ _ _ _ _ _ _ Hthrow) as [[Hno _]|[_ H]]; [congruence|done].
  - intros r Hconv Hr Hok. revert Hthrow.
    unfold run, chat_forward. rewrite io_bind_run.
    rewrite (getIAMToken_run _ _ _ _ (getIAMToken_rejected _ _ _ Hconv Hr Hok)).
    by intros [= <- <-].
Qed.

Lemma chat_exception_becomes_500_witness :
  run (chat_handler default_config (Some (chat_body "bad-key" [])))
      (rejecting_upstream "BXNIM0415E")
    = (Ok {| status := 500;
             body := {[ "error" := JStr "IAM token error: BXNIM0415E" ]} |},
       [TokenCall (Some (JStr "bad-key"))]).
Proof.
  apply (chat_exception_becomes_500 default_config (rejecting_upstream "BXNIM0415E")
           (chat_body "bad-key" []) [] _ _);
    first [discriminate | reflexivity | by intros response data [= <-] H].
Defined.

(** A key that cannot be written into the form body: the handler answers
    500 with the TypeError's message and has called nothing; the validate
    handler answers its 401, and has called nothing either. *)
Example unconvertible_key_makes_no_call up :
  let key := JObj {[ "toString" := JNum 1 ]} in
  run (chat_handler default_config
         (Some (JObj {[ "apiKey" := key; "messages" := JArr [] ]}))) up
  = (Ok {| status := 500; body := {[ "error" := JStr cannot_convert ]} |}, []) ∧
  run (validate_handler (Some (JObj {[ "apiKey" := key ]}))) up
  = (Ok {| status := 401;
           body := {[ "valid" := JBool false; "error" := JStr "Invalid API key" ]} |}, []).
Proof. split; reflexivity. Qed.

(** C4, as the claim has it, fails: the 500 body is not generic.  When the
    identity provider rejects the key, the body carries the provider's own
    error text, so two rejections with different texts give different
    bodies. *)
Lemma chat_500_body_exposes_upstream_text :
  run (chat_handler default_config (Some (chat_body "bad-key" [])))
      (rejecting_upstream "BXNIM0415E: Provided API key could not be found.")
    = (Ok {| status := 500;
             body := {[ "error" :=
                          JStr "IAM token error: BXNIM0415E: Provided API key could not be found." ]} |},
       [TokenCall (Some (JStr "bad-key"))])
  ∧ ¬ generic_500 default_config.
Proof.
  split; [reflexivity|].
  intros [generic Hgen].
  pose proof (Hgen (rejecting_upstream "a") (Some (chat_body "k" [])) _ _
                eq_refl eq_refl) as Ha.
  pose proof (Hgen (rejecting_upstream "b") (Some (chat_body "k" [])) _ _
                eq_refl eq_refl) as Hb.
  rewrite <- Hb in Ha. simpl in Ha.
  apply (f_equal (λ m : gmap string json, m !! "error")) in Ha.
  vm_compute in Ha. discriminate.
Qed.

(** [getIAMToken] returns when the provider accepts the key, and throws in
    every other case. *)
Lemma getIAMToken_outcome apiKey up :
  (∃ response data,
     template_ok apiKey = true ∧
     token_endpoint up apiKey = Responded response ∧
     resp_ok response = true ∧
     resp_json response = Ok data ∧ data ≠ JNull ∧
     run (getIAMToken apiKey) up
     = (Ok (own_prop data "access_token"), [TokenCall apiKey]))
  ∨
  (¬ (template_ok apiKey = true ∧
      ∃ response data,
        token_endpoint up apiKey = Responded response ∧
        resp_ok response = true ∧
        resp_json response = Ok data ∧ data ≠ JNull) ∧
   ∃ e, run (getIAMToken apiKey) up = (Throw e, token_calls apiKey)).
Proof.
  unfold token_calls.
  destruct (template_ok apiKey) eqn:Hconv.
  2:{ right. split; [by intros [? _]|]. eexists. by apply getIAMToken_unconvertible. }
  destruct (token_endpoint up apiKey) as [e|r] eqn:Hr.
  { right. split; [by intros (_ & ? & ? & ? & _)|].
    eexists. by apply getIAMToken_unreachable. }
  destruct (resp_ok r) eqn:Hok.
  2:{ right. split; [intros (_ & ? & ? & [= <-] & ? & _); congruence|].
      eexists. by apply getIAMToken_rejected. }
  unfold run, getIAMToken. rewrite io_bind_run. unfold fetch_token.
  rewrite Hconv, Hr. cbn [settle]. cbv iota beta. rewrite Hok. cbn [negb].
  rewrite io_bind_run. unfold lift.
  destruct (resp_json r) as [data|e] eqn:Hjson.
  2:{ right. split; [intros (_ & ? & ? & [= <-] & _ & ? & _); congruence|]. by eexists. }
  destruct (json_null_dec data) as [->|Hd].
  { right. split; [|by eexists].
    intros (_ & ? & d & [= <-] & _ & Hj & Hn). rewrite Hjson in Hj. by injection Hj as <-. }
  left. exists r, data. repeat split; try done. by destruct data.
Qed.

(** C7: the validate handler always answers, and never with anything the
    identity provider said.  The reply is 200 with the body [{valid: true}]
    exactly when the provider accepts the key: the body carries a truthy
    [apiKey] and the token endpoint answers it with a success status and a
    JSON body.  In every other case the body says [valid: false], in one of
    two fixed replies: 400 when the key is missing, and 401 when the provider
    rejects the key, when the network fails, and whenever else the exchange
    throws. *)
Theorem validate_normalizes_failures up req_body :
  ∃ rep log,
    run (validate_handler req_body) up = (Ok rep, log) ∧
    (provider_accepts up req_body ∧
     rep = {| status := 200; body := {[ "valid" := JBool true ]} |}
     ∨
     ¬ provider_accepts up req_body ∧
     body rep !! "valid" = Some (JBool false) ∧
     (rep = {| status := 400;
               body := {[ "valid" := JBool false;
                          "error" := JStr "API key is required" ]} |} ∨
      rep = {| status := 401;
               body := {[ "valid" := JBool false;
                          "error" := JStr "Invalid API key" ]} |})) ∧
    (∀ b : json,
       req_body = Some b → b ≠ JNull → truthy (own_prop b "apiKey") = false →
       rep = {| status := 400;
                body := {[ "valid" := JBool false;
                           "error" := JStr "API key is required" ]} |}) ∧
    (∀ (b : json) response,
       req_body = Some b → truthy (own_prop b "apiKey") = true →
       token_endpoint up (own_prop b "apiKey") = Responded response →
       resp_ok response = false →
       rep = {| status := 401;
                body := {[ "valid" := JBool false;
                           "error" := JStr "Invalid API key" ]} |}) ∧
    (∀ (b : json) e,
       req_body = Some b → truthy (own_prop b "apiKey") = true →
       token_endpoint up (own_prop b "apiKey") = NetworkError e →
       rep = {| status := 401;
                body := {[ "valid" := JBool false;
                           "error" := JStr "Invalid API key" ]} |}).
Proof.
  unfold run, validate_handler, try_catch. rewrite io_bind_run. unfold lift.
  destruct req_body as [b|].
  2:{ eexists _, _. split; [reflexivity|]. split; [|by repeat split].
      right. split; [by intros (? & ? & ? & [=] & _)|]. split; [done|by right]. }
  destruct (json_null_dec b) as [->|Hb].
  { eexists _, _. split; [reflexivity|]. split.
    - right. split; [by intros (? & ? & ? & [= <-] & ? & _)|]. split; [done|by right].
    - split; [by intros ? [= <-]|]. split; intros ? ? [= <-]; discriminate. }
  rewrite (destructure_ok _ _ Hb). cbv iota beta zeta.
  destruct (truthy (own_prop b "apiKey")) eqn:Hkey; cbn [negb].
  2:{ eexists _, _. split; [reflexivity|]. split.
      - right. split; [|split; [done|by left]].
        intros (? & ? & ? & [= <-] & _ & Hk & _). congruence.
      - split; [done|]. split; intros ? ? [= <-]; congruence. }
  rewrite io_bind_run, getIAMToken_log.
  destruct (getIAMToken_outcome (own_prop b "apiKey") up)
    as [(r & data & Hconv & Hr & Hok & Hjson & Hd & ->)|[Hno [e ->]]];
    cbn [fst]; cbv iota beta.
  - eexists _, _. split; [reflexivity|]. split.
    + left. split; [|done]. by exists b, r, data.
    + split; [intros ? [= <-]; congruence|].
      split; intros ? ? [= <-] _ Hr'; rewrite Hr in Hr'; [|discriminate].
      injection Hr' as <-. congruence.
  - eexists _, _. split; [reflexivity|]. split.
    + right. split; [|split; [done|by right]].
      intros (? & r & data & [= <-] & _ & _ & Hconv & Hr & Hok & Hjson & Hd).
      apply Hno. split; [done|]. by exists r, data.
    + split; [intros ? [= <-]; congruence|]. by split.
Qed.

End ServerProperties.

(** ** The client *)

Section AppProperties.
Import Json App.

Lemma getUsage_current today st u :
  agentUsage (localStorage st) = Some u → date u = today →
  getUsage today st = (u, st).
Proof.
  intros Hu Hd. unfold getUsage, getItem_agentUsage, gets, mbind, ui_bind.
  rewrite Hu. by rewrite decide_True.
Qed.

(** C1: when the stored record is dated another day, or nothing is stored,
    [getUsage] returns the record dated today in which every agent's counter
    is zero, whatever the stored counters are, and it leaves the browser
    state, the store included, as it was. *)
Theorem getUsage_resets_stale_record today st :
  (∀ u, agentUsage (localStorage st) = Some u → date u ≠ today) →
  getUsage today st = (fresh_usage today, st) ∧
  date (fresh_usage today) = today ∧
  counts (fresh_usage today) !! "emailRewriter" = Some 0 ∧
  counts (fresh_usage today) !! "bauEstimate" = Some 0 ∧
  ∀ agentId, is_agent_key agentId = true → count_of (fresh_usage today) agentId = 0.
Proof.
  intros Hstale. split; [|split; [done|split; [done|split; [done|]]]].
  - unfold getUsage, getItem_agentUsage, gets, mbind, ui_bind.
    destruct (agentUsage (localStorage st)) as [u|] eqn:Hu; [|done].
    rewrite decide_False; [done|]. by apply Hstale.
  - intros agentId _. unfold count_of, fresh_usage. cbn [counts].
    destruct (decide (agentId = "emailRewriter")) as [->|H1]; [done|].
    destruct (decide (agentId = "bauEstimate")) as [->|H2]; [done|].
    by rewrite lookup_insert_ne, lookup_singleton_ne.
Qed.

Lemma getUsage_resets_stale_record_witness :
  getUsage "2026-11-02" (initial_state "2026-11-02" (store_with "2026-11-01" 57))
  = (fresh_usage "2026-11-02", initial_state "2026-11-02" (store_with "2026-11-01" 57)).
Proof.
  apply (getUsage_resets_stale_record "2026-11-02"
           (initial_state "2026-11-02" (store_with "2026-11-01" 57))).
  intros u [= <-]. discriminate.
Defined.

(** What one call of [incrementUsage] does to a record of the current day. *)
Lemma incrementUsage_current today agentId st u :
  agentUsage (localStorage st) = Some u → date u = today →
  incrementUsage today agentId st =
  let u' := {| date := date u;
               counts := <[agentId := count_of u agentId + 1]> (counts u) |} in
  (u', set_localStorage {| agentUsage := Some u';
                           watsonxApiKey := watsonxApiKey (localStorage st) |} st).
Proof.
  intros Hu Hd. unfold incrementUsage, mbind, ui_bind.
  by rewrite (getUsage_current _ _ _ Hu Hd).
Qed.

Lemma count_of_insert (m : gmap string Z) agentId n d :
  count_of {| date := d; counts := <[agentId := n]> m |} agentId = n.
Proof. unfold count_of. cbn [counts]. by rewrite lookup_insert_eq. Qed.

(** C2: on a record of the current day, one call of [incrementUsage] raises
    the counter of the named agent by exactly one, stores the result, and
    leaves the date and every other counter as they were; a second call makes
    it exactly two.  The agent id is a key for a counter, and the counter
    stays a safe integer. *)
Theorem incrementUsage_adds_exactly_one today agentId st u :
  agentUsage (localStorage st) = Some u →
  date u = today →
  is_agent_key agentId = true →
  is_safe_integer (count_of u agentId) →
  is_safe_integer (count_of u agentId + 2) →
  let (u1, st1) := incrementUsage today agentId st in
  let (u2, st2) := incrementUsage today agentId st1 in
  (count_of u1 agentId = count_of u agentId + 1 ∧
   date u1 = date u ∧
   (∀ k, k ≠ agentId → counts u1 !! k = counts u !! k) ∧
   agentUsage (localStorage st1) = Some u1) ∧
  (count_of u2 agentId = count_of u agentId + 2 ∧
   date u2 = date u ∧
   (∀ k, k ≠ agentId → counts u2 !! k = counts u !! k) ∧
   agentUsage (localStorage st2) = Some u2).
Proof.
  intros Hu Hd _ _ _.
  rewrite (incrementUsage_current _ _ _ _ Hu Hd). cbv beta iota zeta.
  erewrite incrementUsage_current; [|reflexivity|exact Hd]. cbv beta iota zeta.
  cbn [date counts]. rewrite !count_of_insert.
  repeat split; try done.
  - intros k Hk. by rewrite lookup_insert_ne.
  - lia.
  - intros k Hk. by rewrite !lookup_insert_ne.
Qed.

Lemma incrementUsage_adds_exactly_one_witness :
  let st := initial_state "2026-11-02" (store_with "2026-11-02" 7) in
  agentUsage (localStorage (incrementUsage "2026-11-02" "emailRewriter"
                              (incrementUsage "2026-11-02" "emailRewriter" st).2).2)
  = Some {| date := "2026-11-02";
            counts := {[ "emailRewriter" := 9; "bauEstimate" := 0 ]} |}.
Proof.
  intros st.
  pose proof (incrementUsage_adds_exactly_one "2026-11-02" "emailRewriter" st
                {| date := "2026-11-02";
                   counts := {[ "emailRewriter" := 7; "bauEstimate" := 0 ]} |}
                eq_refl eq_refl) as H.
  assert (Hne : is_agent_key "emailRewriter" = true) by reflexivity.
  assert (Hs1 : is_safe_integer 7) by (unfold is_safe_integer; lia).
  assert (Hs2 : is_safe_integer (7 + 2)) by (unfold is_safe_integer; lia).
  specialize (H Hne Hs1 Hs2).
  destruct (incrementUsage "2026-11-02" "emailRewriter" st) as [u1 st1] eqn:E1.
  destruct (incrementUsage "2026-11-02" "emailRewriter" st1) as [u2 st2] eqn:E2.
  destruct H as [_ (_ & _ & _ & H)].
  cbn [snd]. rewrite E2. cbn [snd]. rewrite H.
  injection E1 as <- <-. injection E2 as <- _. reflexivity.
Defined.

(** [handleSelectAgent], case by case. *)
Lemma handleSelectAgent_cases today a st :
  handleSelectAgent today a st =
  if is_active (activeAgent st) a then (tt, st)
  else if MAX_CALLS_PER_DAY <=? count_of (getUsage today st).1 (id a)
       then (tt, set_alerts (alerts st ++ [limit_alert a]) st)
       else (tt, set_activeAgent (Some a) st).
Proof.
  unfold handleSelectAgent, mbind, ui_bind, gets. cbv beta iota.
  destruct (is_active (activeAgent st) a); [done|].
  unfold getUsage, getItem_agentUsage, gets, mbind, ui_bind. cbv beta iota.
  destruct (agentUsage (localStorage st)) as [u|]; [destruct (decide _)|];
    cbn [mret ui_ret fst]; by destruct (_ <=? _).
Qed.

(** Rendering touches nothing but the state of [AgentChat]. *)
Lemma commit_frame before st :
  activeAgent (commit before st).2 = activeAgent st ∧
  requests (commit before st).2 = requests st ∧
  alerts (commit before st).2 = alerts st ∧
  localStorage (commit before st).2 = localStorage st.
Proof.
  unfold commit, modify. cbn [snd].
  destruct (activeAgent st) as [a|] eqn:Ha; [|done].
  destruct before as [b|]; [destruct (chat st) as [c|]|]; try done.
  destruct (decide _); done.
Qed.

Lemma click_cases today a st :
  click today a st =
  if isDisabled (usage st) a then (tt, st) else select today a st.
Proof.
  unfold click, mbind, ui_bind, gets. cbv beta iota.
  by destruct (isDisabled (usage st) a).
Qed.

(** C6, as the code has it: when the stored counter of an agent has reached
    200 for the current day, a click on that agent changes neither the active
    agent nor the list of chat requests sent.  The notification is shown
    unless that agent is already the active one: re-selecting the active
    agent returns before the limit is looked at. *)
Theorem select_at_limit_keeps_active_agent today a st u :
  agentUsage (localStorage st) = Some u →
  date u = today →
  is_agent_key (id a) = true →
  MAX_CALLS_PER_DAY ≤ count_of u (id a) →
  let st' := (select today a st).2 in
  activeAgent st' = activeAgent st ∧
  requests st' = requests st ∧
  alerts st' = if is_active (activeAgent st) a then alerts st
               else alerts st ++ [limit_alert a].
Proof.
  intros Hu Hd _ Hlimit. cbv zeta.
  unfold select, mbind, ui_bind, gets. cbv beta iota.
  rewrite handleSelectAgent_cases, (getUsage_current _ _ _ Hu Hd). cbn [fst].
  destruct (is_active (activeAgent st) a) eqn:Hact.
  - by destruct (commit_frame (activeAgent st) st) as (-> & -> & -> & _).
  - rewrite (proj2 (Z.leb_le _ _) Hlimit).
    by destruct (commit_frame (activeAgent st)
                   (set_alerts (alerts st ++ [limit_alert a]) st))
      as (-> & -> & -> & _).
Qed.

Lemma select_at_limit_keeps_active_agent_witness :
  let st := initial_state "2026-11-02" (store_with "2026-11-02" 200) in
  let st' := (select "2026-11-02" AGENTS.emailRewriter st).2 in
  activeAgent st' = None ∧ requests st' = [] ∧
  alerts st' = ["Daily limit of 200 calls reached for Email Rewriter Agent"].
Proof.
  apply (select_at_limit_keeps_active_agent "2026-11-02" AGENTS.emailRewriter
           (initial_state "2026-11-02" (store_with "2026-11-02" 200))
           {| date := "2026-11-02";
              counts := {[ "emailRewriter" := 200; "bauEstimate" := 0 ]} |});
    [reflexivity | reflexivity | reflexivity | by vm_compute].
Defined.

(** C6, as the claim has it, fails.  The email rewriter is the active
    agent, the dashboard shows 150 calls (so its button is enabled), and the
    store says 200 for the day: a click on the email rewriter shows no
    notification at all. *)
Lemma reselect_at_limit_shows_no_notification :
  let st := stale_session "2026-11-02" 150 200 in
  agentUsage (localStorage st) = Some {| date := "2026-11-02";
                                         counts := {[ "emailRewriter" := 200;
                                                      "bauEstimate" := 0 ]} |} ∧
  is_agent_key (id AGENTS.emailRewriter) = true ∧
  MAX_CALLS_PER_DAY ≤ 200 ∧
  isDisabled (usage st) AGENTS.emailRewriter = false ∧
  alerts (click "2026-11-02" AGENTS.emailRewriter st).2 = [] ∧
  alerts (select "2026-11-02" AGENTS.emailRewriter st).2 = [] ∧
  ¬ refused_with_notification "2026-11-02" AGENTS.emailRewriter st.
Proof.
  cbv zeta. split; [reflexivity|]. split; [reflexivity|]. split; [by vm_compute|].
  split; [reflexivity|]. split; [reflexivity|]. split; [reflexivity|].
  intros (_ & _ & H). vm_compute in H. discriminate.
Qed.

(** C9: whenever a click changes the active agent, the transcript becomes
    exactly one message, the greeting of the new agent, sent in the role of
    the assistant and quoting the agent's name, and the error banner is
    empty. *)
Theorem agent_change_resets_transcript today a st :
  activeAgent (select today a st).2 ≠ activeAgent st →
  ∃ c, activeAgent (select today a st).2 = Some a ∧
       chat (select today a st).2 = Some c ∧
       messages c = [greeting a] ∧
       error c = "" ∧
       role (greeting a) = "assistant" ∧
       content (greeting a) =
         Some (JStr ("Hello! I'm the " +:+ name a +:+ ". " +:+ description a
                     +:+ ". How can I help you today?")).
Proof.
  unfold select, mbind, ui_bind, gets. cbv beta iota.
  rewrite handleSelectAgent_cases.
  destruct (is_active (activeAgent st) a) eqn:Hact.
  { intros H. exfalso. apply H.
    by destruct (commit_frame (activeAgent st) st) as (-> & _). }
  destruct (_ <=? _).
  { intros H. exfalso. apply H.
    by destruct (commit_frame (activeAgent st)
                   (set_alerts (alerts st ++ [limit_alert a]) st)) as (-> & _). }
  intros _. unfold commit, modify. cbn [snd activeAgent set_activeAgent].
  destruct (activeAgent st) as [b|] eqn:Hb; [destruct (chat st) as [c|] eqn:Hc|].
  - cbn [chat set_activeAgent]. rewrite Hc, decide_False.
    + by eexists.
    + unfold effect_deps. intros [= Hid _ _]. simpl in Hact.
      rewrite bool_decide_eq_false in Hact. congruence.
  - cbn [chat set_activeAgent]. rewrite Hc. by eexists.
  - by eexists.
Qed.

Lemma agent_change_resets_transcript_witness :
  let st := session_at "2026-11-02" 3 in
  ∃ c, activeAgent (select "2026-11-02" AGENTS.bauEstimate st).2 = Some AGENTS.bauEstimate ∧
       chat (select "2026-11-02" AGENTS.bauEstimate st).2 = Some c ∧
       messages c = [greeting AGENTS.bauEstimate] ∧
       error c = "".
Proof.
  cbv zeta.
  destruct (agent_change_resets_transcript "2026-11-02" AGENTS.bauEstimate
              (session_at "2026-11-02" 3)) as (c & H1 & H2 & H3 & H4 & _).
  - vm_compute. discriminate.
  - exists c. auto.
Defined.

(** *** The conversation history *)

Lemma slice_last_length {A} n (l : list A) :
  (length (slice_last n l) ≤ n)%nat.
Proof. unfold slice_last. rewrite length_drop. lia. Qed.

Lemma slice_last_short {A} n (l : list A) :
  (length l ≤ n)%nat → slice_last n l = l.
Proof.
  intros H. unfold slice_last.
  by replace (length l - n)%nat with 0%nat by lia.
Qed.


Lemma remember_slice history userMessage response :
  remember history userMessage response
  = slice_last 10 (history ++ turns (userMessage, response)).
Proof.
  unfold remember, turns. cbn [fst snd].
  destruct (10 <? _)%nat eqn:H; [done|].
  apply Nat.ltb_ge in H. by rewrite slice_last_short.
Qed.


Section WithRuntime.
Variable trim : string → string.
Variable demoResponse : string → string → string.

Lemma resume_history p outcome c :
  conversationHistory (resume demoResponse p outcome c) =
  match p, outcome with
  | AwaitCall userMessage, Returned response =>
      remember (conversationHistory c) userMessage response
  | _, _ => conversationHistory c
  end.
Proof. by destruct p, outcome. Qed.

Lemma handleIncrement_frame today agentId st :
  chat (handleIncrement today agentId st).2 = chat st ∧
  activeAgent (handleIncrement today agentId st).2 = activeAgent st ∧
  apiKey (handleIncrement today agentId st).2 = apiKey st ∧
  requests (handleIncrement today agentId st).2 = requests st.
Proof.
  unfold handleIncrement, incrementUsage, saveUsage, setItem_agentUsage,
    getUsage, getItem_agentUsage, gets, modify, mbind, ui_bind.
  cbv beta iota.
  destruct (agentUsage (localStorage st)); [destruct (decide _)|]; done.
Qed.

Lemma step_history_bounded today e st :
  history_bounded st → history_bounded (step trim demoResponse today e st).
Proof.
  unfold history_bounded. intros Hb. destruct e as [a|text| |p outcome|key]; cbn [step].
  - unfold click, mbind, ui_bind, gets. cbv beta iota.
    destruct (isDisabled (usage st) a); [done|].
    unfold select, mbind, ui_bind, gets. cbv beta iota.
    rewrite handleSelectAgent_cases.
    assert (∀ before st0, chat st0 = chat st →
              match chat (commit before st0).2 with
              | Some c => (length (conversationHistory c) ≤ 10)%nat
              | None => True
              end) as Hcommit.
    { intros before st0 Hst0. unfold commit, modify. cbn [snd].
      destruct (activeAgent st0); [|by rewrite Hst0].
      destruct before; [destruct (chat st0) eqn:Hc|]; cbn; try lia.
      destruct (decide _); cbn; [|lia]. rewrite Hc. by rewrite <- Hst0 in Hb. }
    destruct (is_active _ _); [|destruct (_ <=? _)]; by apply Hcommit.
  - cbn. by destruct (chat st).
  - unfold handleSubmit, mbind, ui_bind, gets, modify, mret, ui_ret. cbv beta iota.
    destruct (activeAgent st) as [a|]; [|done].
    destruct (chat st) as [c|] eqn:Hc; [|by cbn [snd]; rewrite Hc].
    destruct (_ || _); [by cbn [snd]; rewrite Hc|].
    match goal with
    | |- context [handleIncrement today (id a) ?s] =>
        destruct (handleIncrement_frame today (id a) s) as (Hchat & _);
        destruct (handleIncrement today (id a) s) as [[] st1]
    end.
    cbn [snd] in Hchat. cbv beta iota.
    destruct (negb _); cbn; rewrite ?Hchat; cbn; done.
  - unfold handleSubmit_resume, modify. cbn [snd chat set_chat].
    destruct (chat st) as [c|]; [|done].
    change (resume demoResponse p outcome <$> Some c)
      with (Some (resume demoResponse p outcome c)).
    cbv beta iota. rewrite resume_history. destruct p, outcome; try done.
    rewrite remember_slice. apply slice_last_length.
  - cbn. done.
Qed.



(** The synchronous part of [handleSubmit] on an input that passes the
    guard, over a record of the current day. *)
Lemma handleSubmit_counts today st a c u :
  activeAgent st = Some a →
  chat st = Some c →
  trim (input c) ≠ "" →
  isLoading c = false →
  agentUsage (localStorage st) = Some u →
  date u = today →
  ∃ p st1,
    handleSubmit trim today st = (Some p, st1) ∧
    p = (if String.eqb (apiKey st) "" then AwaitTimer (id a) (trim (input c))
         else AwaitCall (trim (input c))) ∧
    agentUsage (localStorage st1)
      = Some {| date := date u;
                counts := <[id a := count_of u (id a) + 1]> (counts u) |} ∧
    activeAgent st1 = Some a.
Proof.
  intros Ha Hc Hin Hload Hu Hd.
  unfold handleSubmit, mbind, ui_bind, gets, modify, mret, ui_ret. cbv beta iota.
  rewrite Ha, Hc, Hload, orb_false_r.
  rewrite (proj2 (String.eqb_neq _ _) Hin).
  unfold handleIncrement, mbind, ui_bind, modify. cbv beta iota.
  erewrite incrementUsage_current; [|exact Hu|exact Hd]. cbv beta iota zeta.
  destruct (String.eqb (apiKey st) "") eqn:Hkey; cbn [negb];
    unfold fetch_chat, modify; cbv beta iota;
    eexists _, _; (split; [reflexivity|]); cbn; by rewrite ?Ha.
Qed.

(** C10: sending a message counts it whatever the counter says.  For every
    count [n] of the current day, 200 and more included, [incrementUsage]
    returns [n + 1]; [handleSubmit], once past its guard on the input, has
    stored [n + 1] by the time it awaits, in demo mode as in live mode, and
    no outcome of the exchange takes the count back.  At 200 or more the
    stored counter of the active agent therefore exceeds the limit. *)
Theorem submit_counts_regardless_of_limit today st a c u :
  activeAgent st = Some a →
  chat st = Some c →
  trim (input c) ≠ "" →
  isLoading c = false →
  agentUsage (localStorage st) = Some u →
  date u = today →
  is_agent_key (id a) = true →
  is_safe_integer (count_of u (id a) + 1) →
  count_of (incrementUsage today (id a) st).1 (id a) = count_of u (id a) + 1 ∧
  ∃ p st1 u1,
    handleSubmit trim today st = (Some p, st1) ∧
    p = (if String.eqb (apiKey st) "" then AwaitTimer (id a) (trim (input c))
         else AwaitCall (trim (input c))) ∧
    activeAgent st1 = Some a ∧
    agentUsage (localStorage st1) = Some u1 ∧
    count_of u1 (id a) = count_of u (id a) + 1 ∧
    (MAX_CALLS_PER_DAY ≤ count_of u (id a) → MAX_CALLS_PER_DAY < count_of u1 (id a)) ∧
    ∀ p' outcome,
      agentUsage (localStorage (handleSubmit_resume demoResponse p' outcome st1).2)
      = Some u1.
Proof.
  intros Ha Hc Hin Hload Hu Hd _ _. split.
  - rewrite (incrementUsage_current _ _ _ _ Hu Hd). cbv zeta. cbn [fst].
    apply count_of_insert.
  - destruct (handleSubmit_counts _ _ _ _ _ Ha Hc Hin Hload Hu Hd)
      as (p & st1 & Hrun & Hp & Hstored & Hactive).
    exists p, st1, {| date := date u;
                      counts := <[id a := count_of u (id a) + 1]> (counts u) |}.
    rewrite count_of_insert. repeat split; first [done | lia].
Qed.

End WithRuntime.

Lemma submit_counts_regardless_of_limit_witness :
  let st := step trim_ascii demo_echo "2026-11-02" (Typing " one more ")
              (session_at "2026-11-02" 200) in
  ∃ p st1 u1,
    handleSubmit trim_ascii "2026-11-02" st = (Some p, st1) ∧
    p = AwaitTimer "emailRewriter" "one more" ∧
    activeAgent st1 = Some AGENTS.emailRewriter ∧
    agentUsage (localStorage st1) = Some u1 ∧
    count_of u1 "emailRewriter" = 201.
Proof.
  cbv zeta.
  destruct (submit_counts_regardless_of_limit trim_ascii demo_echo "2026-11-02"
              (step trim_ascii demo_echo "2026-11-02" (Typing " one more ")
                 (session_at "2026-11-02" 200))
              AGENTS.emailRewriter
              (setInput " one more " (agent_effect AGENTS.emailRewriter initial_chat))
              {| date := "2026-11-02";
                 counts := {[ "emailRewriter" := 200; "bauEstimate" := 0 ]} |})
    as (_ & p & st1 & u1 & Hrun & Hp & Hactive & Hstored & Hcount & _);
    try reflexivity.
  - by vm_compute.
  - unfold is_safe_integer. vm_compute. split; reflexivity.
  - exists p, st1, u1. repeat split; assumption.
Defined.

(** A whole session: the store says 199, the email rewriter is selected (the
    limit is not reached), and two messages are sent in demo mode.  The
    counter ends at 201 with the agent still active. *)
Example counter_passes_limit_in_session :
  let st := steps trim_ascii demo_echo
              [("2026-11-02", Select AGENTS.emailRewriter);
               ("2026-11-02", Typing "first");
               ("2026-11-02", Submit);
               ("2026-11-02", Settle (AwaitTimer "emailRewriter" "first") (Returned None));
               ("2026-11-02", Typing "second");
               ("2026-11-02", Submit)]
              (initial_state "2026-11-02" (store_with "2026-11-02" 199)) in
  activeAgent st = Some AGENTS.emailRewriter ∧
  (λ u, count_of u "emailRewriter") <$> agentUsage (localStorage st) = Some 201 ∧
  alerts st = [].
Proof. by vm_compute. Qed.

End AppProperties.

(** * Further properties *)

(** ** The proxy *)

Section ServerFurther.
Import Json Server.

(** X1: the login handler answers a request that has a body, and it answers
    200 with [success: true] exactly when [username] and [password] are the
    two configured strings; anything else (a wrong or missing field, a value
    that is not a string) gets the fixed 401 reply. *)
Theorem login_accepts_only_configured_pair creds (b : json) :
  b ≠ JNull →
  (own_prop b "username" = Some (JStr (DEMO_USER creds)) ∧
   own_prop b "password" = Some (JStr (DEMO_PASSWORD creds)) ∧
   login_handler creds (Some b)
   = Ok {| status := 200;
           body := {[ "success" := JBool true;
                      "message" := JStr "Login successful" ]} |})
  ∨
  (¬ (own_prop b "username" = Some (JStr (DEMO_USER creds)) ∧
      own_prop b "password" = Some (JStr (DEMO_PASSWORD creds))) ∧
   login_handler creds (Some b)
   = Ok {| status := 401;
           body := {[ "success" := JBool false;
                      "message" := JStr "Invalid credentials" ]} |}).
Proof.
  intros Hb. unfold login_handler. rewrite (destructure_ok _ _ Hb).
  assert (Heq : ∀ v s, strict_eq_string v s = true ↔ v = Some (JStr s)).
  { intros v s. unfold strict_eq_string. split.
    - destruct v as [[]|]; try discriminate. by intros ->%String.eqb_eq.
    - intros ->. apply String.eqb_refl. }
  destruct (strict_eq_string (own_prop b "username") (DEMO_USER creds)) eqn:Hu;
    [destruct (strict_eq_string (own_prop b "password") (DEMO_PASSWORD creds)) eqn:Hp|];
    cbn [andb].
  - left. by rewrite <- !Heq.
  - right. split; [|done]. intros [_ H%Heq]. congruence.
  - right. split; [|done]. intros [H%Heq _]. congruence.
Qed.

Lemma login_accepts_only_configured_pair_witness :
  login_handler default_credentials
    (Some (JObj {[ "username" := JStr "ibmdevday2026"; "password" := JNum 4456 ]}))
  = Ok {| status := 401;
          body := {[ "success" := JBool false;
                     "message" := JStr "Invalid credentials" ]} |}.
Proof.
  destruct (login_accepts_only_configured_pair default_credentials
              (JObj {[ "username" := JStr "ibmdevday2026"; "password" := JNum 4456 ]}))
    as [(_ & H & _)|[_ H]]; [discriminate | discriminate H | exact H].
Defined.

(** X2: [getIAMToken] calls the token endpoint once, unless the key cannot
    be written into the form body: then it throws the TypeError and calls
    nothing.  It returns exactly when the key converts and the answer has a
    success status and a JSON body other than [null]; what it returns is that
    body's [access_token], which is [undefined] when the body has none.
    Every other answer, and a network failure, make it throw. *)
Theorem getIAMToken_returns_access_token apiKey up :
  ∃ r log,
    run (getIAMToken apiKey) up = (r, log) ∧
    (template_ok apiKey = true → log = [TokenCall apiKey]) ∧
    (template_ok apiKey = false → log = [] ∧ r = Throw cannot_convert) ∧
    ∀ token,
      r = Ok token ↔
      template_ok apiKey = true ∧
      ∃ response data,
        token_endpoint up apiKey = Responded response ∧
        resp_ok response = true ∧
        resp_json response = Ok data ∧ data ≠ JNull ∧
        token = own_prop data "access_token".
Proof.
  destruct (getIAMToken_outcome apiKey up)
    as [(r & data & Hconv & Hr & Hok & Hjson & Hd & Hrun)|[Hno [e Hrun]]];
    eexists _, _; (split; [exact Hrun|]).
  - split; [done|]. split; [congruence|]. intros token. split.
    + intros [= <-]. split; [done|]. by exists r, data.
    + intros (_ & r' & data' & Hr' & _ & Hjson' & _ & ->).
      rewrite Hr in Hr'. injection Hr' as <-.
      rewrite Hjson in Hjson'. by injection Hjson' as <-.
  - unfold token_calls. split; [by intros ->|]. split.
    + intros Hconv. rewrite Hconv. split; [done|].
      rewrite (getIAMToken_unconvertible _ up Hconv) in Hrun. by injection Hrun as <-.
    + intros token. split; [discriminate|].
      intros (Hconv & r & data & ? & ? & ? & ? & _). exfalso. apply Hno.
      split; [done|]. by exists r, data.
Qed.

(** The two replies of the body checks. *)
Lemma chat_rejects_malformed_request_cases cfg up (b : json) :
  b ≠ JNull →
  (truthy (own_prop b "apiKey") = false →
   run (chat_handler cfg (Some b)) up
   = (Ok {| status := 400; body := {[ "error" := JStr "API key is required" ]} |}, [])) ∧
  (truthy (own_prop b "apiKey") = true →
   isArray (own_prop b "messages") = false →
   run (chat_handler cfg (Some b)) up
   = (Ok {| status := 400; body := {[ "error" := JStr "Messages array is required" ]} |}, [])).
Proof.
  intros Hb. unfold run, chat_handler, try_catch. rewrite io_bind_run.
  unfold lift. rewrite (destructure_ok _ _ Hb). cbv beta iota zeta.
  split.
  - by intros ->.
  - intros -> Harr. cbn [negb].
    by destruct (own_prop b "messages") as [[]|].
Qed.

Lemma js_or_default a d : ∃ j, js_or a (Some d) = Some j.
Proof.
  unfold js_or. destruct (truthy a) eqn:Ha; [|by eexists].
  destruct a; [by eexists | discriminate].
Qed.

(** Steps through a handler's binds, splitting on every result met. *)
Ltac io_cases H :=
  repeat (first
    [ rewrite io_bind_run in H
    | progress unfold lift, mret, io_ret, throw in H
    | match type of H with
      | context [match ?x with Ok _ => _ | Throw _ => _ end] =>
          let E := fresh "E" in destruct x eqn:E
      | context [let (_, _) := ?x in _] =>
          let E := fresh "E" in destruct x eqn:E
      | context [if ?x then _ else _] =>
          let E := fresh "E" in destruct x eqn:E
      end
    | progress cbv beta iota in H ]).

Lemma chat_forward_reply cfg apiKey systemPrompt l up rep log :
  run (chat_forward cfg apiKey systemPrompt l) up = (Ok rep, log) →
  status rep = 200 ∨ is_Some (body rep !! "error").
Proof.
  unfold run, chat_forward. rewrite io_bind_run, getIAMToken_log.
  destruct (run (getIAMToken apiKey) up) as [[token|e] log0]; cbn [fst];
    [|discriminate].
  rewrite io_bind_run. unfold fetch_chat.
  destruct (settle _) as [response|e]; [|discriminate].
  destruct (negb (resp_ok response)); intros H; io_cases H;
    try discriminate; injection H as <- _; cbn [status body].
  - right. destruct (js_or_default
                       (js_or (get_prop_opt a0 "message") (own_prop a "message"))
                       (JStr "WatsonX API call failed")) as [j ->].
    cbn. rewrite lookup_insert_eq. by eexists.
  - by left.
Qed.

(** X3: the chat handler answers every request, whatever the body and
    whatever the upstream does: nothing is thrown out of it.  The reply is
    either a 200 or it carries an [error] field. *)
Theorem chat_handler_always_replies cfg up req_body :
  ∃ rep log,
    run (chat_handler cfg req_body) up = (Ok rep, log) ∧
    (status rep = 200 ∨ is_Some (body rep !! "error")).
Proof.
  assert (∀ j : json, is_Some (({[ "error" := j ]} : gmap string json) !! "error")) as Herr.
  { intros j. rewrite lookup_singleton_eq. by eexists. }
  destruct req_body as [b|].
  2:{ eexists _, _. split; [reflexivity|]. right. apply Herr. }
  destruct (json_null_dec b) as [->|Hb].
  { eexists _, _. split; [reflexivity|]. right. apply Herr. }
  destruct (chat_rejects_malformed_request_cases cfg up b Hb) as [Hno_key Hno_array].
  destruct (truthy (own_prop b "apiKey")) eqn:Hkey.
  2:{ rewrite (Hno_key eq_refl). eexists _, _. split; [reflexivity|]. right. apply Herr. }
  destruct (isArray (own_prop b "messages")) eqn:Harr.
  2:{ rewrite (Hno_array eq_refl eq_refl). eexists _, _. split; [reflexivity|].
      right. apply Herr. }
  destruct (own_prop b "messages") as [[| | | |l|]|] eqn:Hmsg; try discriminate.
  rewrite (chat_handler_forwards _ _ _ _ Hb Hkey Hmsg).
  destruct (run (chat_forward _ _ _ _) up) as [[rep|e] log] eqn:Hrun.
  - eexists _, _. split; [reflexivity|]. by eapply chat_forward_reply.
  - eexists _, _. split; [reflexivity|]. right. apply Herr.
Qed.

(** X4: when the token exchange succeeds and the chat-completion endpoint
    answers with an error status and a JSON body, the proxy relays that
    status, and the [error] of its reply is the first truthy one of the
    upstream's [error.message], the upstream's [message], and the fixed text
    ["WatsonX API call failed"]. *)
Theorem chat_relays_upstream_failure cfg up (b : json) l token log0 response error :
  b ≠ JNull →
  truthy (own_prop b "apiKey") = true →
  own_prop b "messages" = Some (JArr l) →
  run (getIAMToken (own_prop b "apiKey")) up = (Ok token, log0) →
  chat_endpoint up
    (chat_completion_request cfg token (fullMessages (own_prop b "systemPrompt") l))
    = Responded response →
  resp_ok response = false →
  resp_json response = Ok error →
  error ≠ JNull →
  ∃ rep log,
    run (chat_handler cfg (Some b)) up = (Ok rep, log) ∧
    status rep = resp_status response ∧
    body rep !! "error" =
      (let nested := get_prop_opt (own_prop error "error") "message" in
       if truthy nested then nested
       else if truthy (own_prop error "message") then own_prop error "message"
       else Some (JStr "WatsonX API call failed")) ∧
    ∀ k, k ≠ "error" → body rep !! k = None.
Proof.
  intros Hb Hkey Hmsg Htok Hchat Hok Hjson Herror.
  rewrite (chat_handler_forwards _ _ _ _ Hb Hkey Hmsg).
  unfold run, chat_forward. rewrite io_bind_run.
  rewrite (getIAMToken_run _ _ _ _ Htok). rewrite io_bind_run.
  unfold fetch_chat. rewrite Hchat. cbn [settle]. cbv iota beta.
  rewrite Hok. cbn [negb].
  rewrite !io_bind_run. unfold lift. rewrite Hjson. cbv iota beta.
  assert (get_prop (Some error) "error" = Ok (own_prop error "error")) as Hget
    by by destruct error.
  rewrite !io_bind_run, Hget. cbv iota beta zeta.
  eexists _, _. split; [reflexivity|]. cbn [status body]. split; [done|].
  unfold js_or.
  destruct (truthy (get_prop_opt (own_prop error "error") "message")) eqn:H1.
  - rewrite H1.
    destruct (get_prop_opt (own_prop error "error") "message") as [j|]; [|discriminate].
    cbn. split; [by rewrite lookup_insert_eq|].
    intros k Hk. by rewrite lookup_insert_ne.
  - destruct (truthy (own_prop error "message")) eqn:H2.
    + destruct (own_prop error "message") as [j|]; [|discriminate].
      cbn. split; [by rewrite lookup_insert_eq|].
      intros k Hk. by rewrite lookup_insert_ne.
    + cbn. split; [by rewrite lookup_insert_eq|].
      intros k Hk. by rewrite lookup_insert_ne.
Qed.

Lemma chat_relays_upstream_failure_witness :
  let up := {| token_endpoint := token_endpoint (answering_upstream "token" JNull);
               chat_endpoint := λ _,
                 Responded {| resp_status := 429; resp_text := "";
                              resp_json := Ok (JObj {[ "message" := JStr "Too many requests" ]}) |} |} in
  ∃ rep log,
    run (chat_handler default_config (Some (chat_body "key" []))) up = (Ok rep, log) ∧
    status rep = 429 ∧
    body rep !! "error" = Some (JStr "Too many requests").
Proof.
  intros up.
  destruct (chat_relays_upstream_failure default_config up (chat_body "key" []) []
              (Some (JStr "token")) [TokenCall (Some (JStr "key"))]
              {| resp_status := 429; resp_text := "";
                 resp_json := Ok (JObj {[ "message" := JStr "Too many requests" ]}) |}
              (JObj {[ "message" := JStr "Too many requests" ]}))
    as (rep & log & H1 & H2 & H3 & _); try first [discriminate | reflexivity].
  exists rep, log. by rewrite H1, H2, H3.
Defined.

(** X5: the outbound calls of the chat handler.  It calls nothing, or the
    token endpoint once, or the token endpoint and then the chat-completion
    endpoint once.  The token endpoint is only called with the truthy
    [apiKey] of a body whose [messages] is an array; the chat-completion
    endpoint is only called after [getIAMToken] has returned, with that
    token as bearer, and its messages are one [system] message followed by
    the request's messages as they came.  The system message is the request's
    [systemPrompt] when that is truthy, the default text otherwise. *)
Theorem chat_handler_calls cfg up req_body r log :
  run (chat_handler cfg req_body) up = (r, log) →
  log = [] ∨
  ∃ (b : json) l,
    req_body = Some b ∧
    truthy (own_prop b "apiKey") = true ∧
    own_prop b "messages" = Some (JArr l) ∧
    (log = [TokenCall (own_prop b "apiKey")] ∨
     ∃ token content,
       (run (getIAMToken (own_prop b "apiKey")) up).1 = Ok token ∧
       log = [TokenCall (own_prop b "apiKey");
              ChatCall (chat_completion_request cfg token
                          (JObj {[ "role" := JStr "system"; "content" := content ]} :: l))] ∧
       Some content = (if truthy (own_prop b "systemPrompt")
                       then own_prop b "systemPrompt"
                       else Some (JStr "You are a helpful assistant."))).
Proof.
  destruct req_body as [b|]; [|intros [= _ <-]; by left].
  destruct (json_null_dec b) as [->|Hb]; [intros [= _ <-]; by left|].
  destruct (chat_rejects_malformed_request_cases cfg up b Hb) as [Hno_key Hno_array].
  destruct (truthy (own_prop b "apiKey")) eqn:Hkey.
  2:{ rewrite (Hno_key eq_refl). intros [= _ <-]. by left. }
  destruct (isArray (own_prop b "messages")) eqn:Harr.
  2:{ rewrite (Hno_array eq_refl eq_refl). intros [= _ <-]. by left. }
  destruct (own_prop b "messages") as [[| | | |l|]|] eqn:Hmsg; try discriminate.
  rewrite (chat_handler_forwards _ _ _ _ Hb Hkey Hmsg).
  intros Hrun.
  assert (∃ r', run (chat_forward cfg (own_prop b "apiKey") (own_prop b "systemPrompt") l) up
                = (r', log)) as [r' Hfwd].
  { destruct (run (chat_forward _ _ _ _) up) as [[rep|e] log'];
      injection Hrun as _ <-; by eexists. }
  clear Hrun.
  destruct (template_ok (own_prop b "apiKey")) eqn:Hconv.
  2:{ left. destruct (chat_forward_log _ _ _ _ _ _ _ Hfwd) as [[_ H]|[H _]];
        [done|congruence]. }
  right. exists b, l. repeat split; try done.
  revert Hfwd.
  unfold run, chat_forward. rewrite io_bind_run, getIAMToken_log.
  unfold token_calls. rewrite Hconv.
  destruct (run (getIAMToken (own_prop b "apiKey")) up) as [[token|e] log0];
    cbn [fst]; [|intros [= _ <-]; by left].
  intros H. right.
  assert (∃ content,
            fullMessages (own_prop b "systemPrompt") l
            = JObj {[ "role" := JStr "system"; "content" := content ]} :: l ∧
            Some content = (if truthy (own_prop b "systemPrompt")
                            then own_prop b "systemPrompt"
                            else Some (JStr "You are a helpful assistant.")))
    as (content & Hfull & Hcontent).
  { unfold fullMessages, js_or.
    destruct (truthy (own_prop b "systemPrompt")) eqn:Hsp.
    - destruct (own_prop b "systemPrompt") as [j|]; [|discriminate]. by exists j.
    - by eexists. }
  exists token, content. split; [done|]. split; [|done].
  rewrite <- Hfull.
  rewrite io_bind_run in H. unfold fetch_chat in H.
  destruct (settle _) as [response|e]; [|by injection H as _ <-].
  destruct (negb (resp_ok response)); io_cases H; by injection H as _ <-.
Qed.

Lemma chat_handler_calls_witness :
  (run (chat_handler default_config (Some (chat_body "key" [JStr "hi"])))
       (answering_upstream "token" sample_completion)).2
  = [TokenCall (Some (JStr "key"));
     ChatCall (chat_completion_request default_config (Some (JStr "token"))
                 [JObj {[ "role" := JStr "system";
                          "content" := JStr "You are a helpful assistant." ]};
                  JStr "hi"])].
Proof.
  destruct (chat_handler_calls default_config
              (answering_upstream "token" sample_completion)
              (Some (chat_body "key" [JStr "hi"])) _ _ eq_refl)
    as [H|(b & l & _ & _ & _ & _)]; [discriminate H | reflexivity].
Defined.

(** X6: the validate handler never calls the chat-completion endpoint.  It
    calls the token endpoint once when the body carries a truthy [apiKey]
    that the template literal of [getIAMToken] can turn into a string, and
    nothing at all otherwise: not without a body, not with a falsy key, and
    not with a key whose conversion to a string throws. *)
Theorem validate_handler_calls up req_body :
  (run (validate_handler req_body) up).2 =
  match req_body with
  | Some b => if truthy (own_prop b "apiKey") && template_ok (own_prop b "apiKey")
              then [TokenCall (own_prop b "apiKey")]
              else []
  | None => []
  end.
Proof.
  unfold run, validate_handler, try_catch. rewrite io_bind_run. unfold lift.
  destruct req_body as [b|]; [|done].
  destruct (json_null_dec b) as [->|Hb]; [done|].
  rewrite (destructure_ok _ _ Hb). cbv iota beta zeta.
  destruct (truthy (own_prop b "apiKey")); cbn [negb andb]; [|done].
  rewrite io_bind_run, getIAMToken_log. unfold token_calls.
  by destruct (run (getIAMToken (own_prop b "apiKey")) up) as [[token|e] log0],
       (template_ok (own_prop b "apiKey")).
Qed.

End ServerFurther.

(** ** The client *)

Section ClientFurther.
Import Json App.

Variable trim : string → string.
Variable demoResponse : string → string → string.

(** The chat state [handleSubmit] leaves behind when it goes on. *)
Lemma handleSubmit_past_guard today st a c :
  activeAgent st = Some a →
  chat st = Some c →
  trim (input c) ≠ "" →
  isLoading c = false →
  let sent := {| role := "user"; content := Some (JStr (trim (input c))) |} in
  let c' := {| messages := messages c ++ [sent]; input := ""; isLoading := true;
               error := ""; conversationHistory := conversationHistory c |} in
  let counted := (handleIncrement today (id a) (set_chat (Some c') st)).2 in
  handleSubmit trim today st =
  if String.eqb (apiKey st) ""
  then (Some (AwaitTimer (id a) (trim (input c))), counted)
  else (Some (AwaitCall (trim (input c))),
        set_requests (requests counted ++
                        [ {| cc_apiKey := apiKey st;
                             cc_systemPrompt := systemPrompt a;
                             cc_messages := conversationHistory c ++ [sent] |} ])
          counted).
Proof.
  intros Ha Hc Hin Hload. cbv zeta.
  unfold handleSubmit, mbind, ui_bind, gets, modify, mret, ui_ret. cbv beta iota.
  rewrite Ha, Hc, Hload, orb_false_r.
  rewrite (proj2 (String.eqb_neq _ _) Hin).
  destruct (handleIncrement today (id a) _) as [[] counted] eqn:Hinc. cbn [snd].
  destruct (String.eqb (apiKey st) ""); cbn [negb]; [done|].
  unfold fetch_chat, modify. done.
Qed.

(** [handleSubmit] returns at its guard. *)
Lemma handleSubmit_idle today st :
  (∀ a c, activeAgent st = Some a → chat st = Some c →
          trim (input c) = "" ∨ isLoading c = true) →
  handleSubmit trim today st = (None, st).
Proof.
  intros Hidle.
  unfold handleSubmit, mbind, ui_bind, gets, mret, ui_ret. cbv beta iota.
  destruct (activeAgent st) as [a|]; [|done].
  destruct (chat st) as [c|]; [|done].
  destruct (Hidle a c eq_refl eq_refl) as [->| ->]; [done|].
  by rewrite orb_true_r.
Qed.

(** X7: a submit is ignored when the input is blank once trimmed, when an
    exchange is still in flight, or when no agent is active: nothing is
    awaited, and the whole state is as before, so nothing is counted,
    nothing is sent and the transcript stays as it is. *)
Theorem idle_submit_changes_nothing today st :
  (∀ a c, activeAgent st = Some a → chat st = Some c →
          trim (input c) = "" ∨ isLoading c = true) →
  handleSubmit trim today st = (None, st) ∧
  step trim demoResponse today Submit st = st.
Proof.
  intros Hidle. cbn [step]. by rewrite (handleSubmit_idle _ _ Hidle).
Qed.

(** [getUsage] in one equation. *)
Lemma getUsage_eq today st :
  getUsage today st =
  (match agentUsage (localStorage st) with
   | Some data => if decide (date data = today) then data else fresh_usage today
   | None => fresh_usage today
   end, st).
Proof.
  unfold getUsage, getItem_agentUsage, gets, mbind, ui_bind. cbv beta iota.
  destruct (agentUsage (localStorage st)) as [u|]; [|done].
  by destruct (decide _).
Qed.

Lemma getUsage_date today st : date (getUsage today st).1 = today.
Proof.
  rewrite getUsage_eq. cbn [fst].
  destruct (agentUsage (localStorage st)) as [u|]; [|done].
  by destruct (decide _).
Qed.

(** [incrementUsage] in one equation. *)
Lemma incrementUsage_eq today agentId st :
  incrementUsage today agentId st =
  let u := (getUsage today st).1 in
  let u' := {| date := date u;
               counts := <[agentId := count_of u agentId + 1]> (counts u) |} in
  (u', set_localStorage {| agentUsage := Some u';
                           watsonxApiKey := watsonxApiKey (localStorage st) |} st).
Proof.
  unfold incrementUsage, mbind, ui_bind. by rewrite getUsage_eq.
Qed.

Lemma incrementUsage_date today agentId st :
  date (incrementUsage today agentId st).1 = today.
Proof. rewrite incrementUsage_eq. cbv zeta. cbn. apply getUsage_date. Qed.

Lemma handleIncrement_eq today agentId st :
  (handleIncrement today agentId st).2 =
  let u' := (incrementUsage today agentId st).1 in
  set_usage u' (set_localStorage {| agentUsage := Some u';
                                    watsonxApiKey := watsonxApiKey (localStorage st) |} st).
Proof.
  unfold handleIncrement, mbind, ui_bind, modify. by rewrite incrementUsage_eq.
Qed.

(** X8: the first message of a new day.  When the stored record is dated
    another day, or nothing is stored, [incrementUsage] stores and returns a
    record dated today in which the named agent stands at 1 and the two
    agents of the fresh record that were not named stand at 0: the counts of
    the earlier day are gone, and from then on [getUsage] returns the stored
    record. *)
Theorem incrementUsage_starts_new_day today agentId st :
  (∀ u, agentUsage (localStorage st) = Some u → date u ≠ today) →
  is_agent_key agentId = true →
  let new_day :=
    {| date := today;
       counts := <[agentId := 1]> {[ "emailRewriter" := 0; "bauEstimate" := 0 ]} |} in
  (incrementUsage today agentId st).1 = new_day ∧
  agentUsage (localStorage (incrementUsage today agentId st).2) = Some new_day ∧
  (getUsage today (incrementUsage today agentId st).2).1 = new_day ∧
  count_of new_day agentId = 1 ∧
  ∀ k, k ≠ agentId → is_agent_key k = true → count_of new_day k = 0.
Proof.
  intros Hstale _. cbv zeta.
  assert ((getUsage today st).1 = fresh_usage today) as Hfresh.
  { rewrite getUsage_eq. cbn [fst].
    destruct (agentUsage (localStorage st)) as [u|] eqn:Hu; [|done].
    rewrite decide_False; [done|]. by apply Hstale. }
  rewrite incrementUsage_eq. cbv zeta. rewrite Hfresh. cbn [fst snd].
  assert (count_of (fresh_usage today) agentId = 0) as ->.
  { unfold count_of, fresh_usage. cbn [counts].
    destruct (decide (agentId = "emailRewriter")) as [->|H1]; [done|].
    destruct (decide (agentId = "bauEstimate")) as [->|H2]; [done|].
    by rewrite lookup_insert_ne, lookup_singleton_ne. }
  split; [done|]. split; [done|]. split.
  { rewrite getUsage_eq. cbn. by rewrite decide_True. }
  split; [apply count_of_insert|].
  intros k Hk _. unfold count_of. cbn [counts]. rewrite lookup_insert_ne by done.
  destruct (decide (k = "emailRewriter")) as [->|H1]; [done|].
  destruct (decide (k = "bauEstimate")) as [->|H2]; [done|].
  by rewrite lookup_insert_ne, lookup_singleton_ne.
Qed.

Lemma incrementUsage_starts_new_day_witness :
  agentUsage (localStorage
                (incrementUsage "2026-11-02" "bauEstimate"
                   (initial_state "2026-11-02" (store_with "2026-11-01" 200))).2)
  = Some {| date := "2026-11-02";
            counts := <["bauEstimate" := 1]> {[ "emailRewriter" := 0; "bauEstimate" := 0 ]} |}.
Proof.
  apply (incrementUsage_starts_new_day "2026-11-02" "bauEstimate"
           (initial_state "2026-11-02" (store_with "2026-11-01" 200))).
  - intros u [= <-]. discriminate.
  - reflexivity.
Defined.

(** X9: for an id that names a counter ([is_agent_key]: not ["date"], whose
    slot the increment would overwrite, and not an inherited property name)
    and a count that one can be added to exactly, what [incrementUsage]
    stores is what [getUsage] returns next and what a dashboard mounted over
    the store on the same day shows, whatever day the record stored before
    was dated. *)
Theorem incrementUsage_round_trip today agentId st :
  is_agent_key agentId = true →
  is_safe_integer (count_of (getUsage today st).1 agentId) →
  is_safe_integer (count_of (getUsage today st).1 agentId + 1) →
  let u1 := (incrementUsage today agentId st).1 in
  let st1 := (incrementUsage today agentId st).2 in
  getUsage today st1 = (u1, st1) ∧
  usage (initial_state today (localStorage st1)) = u1.
Proof.
  intros _ _ _.
  cbv zeta. rewrite incrementUsage_eq. cbv zeta. cbn [fst snd].
  pose proof (getUsage_date today st) as Hd.
  split.
  - rewrite getUsage_eq. cbn. by rewrite decide_True.
  - unfold initial_state. cbn. rewrite getUsage_eq. cbn. by rewrite decide_True.
Qed.

Lemma incrementUsage_round_trip_witness :
  (getUsage "2026-11-02"
     (incrementUsage "2026-11-02" "emailRewriter"
        (initial_state "2026-11-02" (store_with "2026-11-02" 3))).2).1
  = (incrementUsage "2026-11-02" "emailRewriter"
       (initial_state "2026-11-02" (store_with "2026-11-02" 3))).1.
Proof.
  pose proof (incrementUsage_round_trip "2026-11-02" "emailRewriter"
                (initial_state "2026-11-02" (store_with "2026-11-02" 3))) as H.
  cbv zeta in H.
  destruct H as [H _].
  - reflexivity.
  - unfold is_safe_integer. vm_compute. split; reflexivity.
  - unfold is_safe_integer. vm_compute. split; reflexivity.
  - by rewrite H.
Defined.

(** X10: the key saved or cleared in [ApiKeyConfig] is the key a dashboard
    mounted over the store starts with, the empty key included (nothing is
    stored for it); the usage record is not touched. *)
Theorem apiKey_round_trip today key st :
  let st1 := (changeApiKey key st).2 in
  apiKey st1 = key ∧
  apiKey (initial_state today (localStorage st1)) = key ∧
  agentUsage (localStorage st1) = agentUsage (localStorage st) ∧
  (watsonxApiKey (localStorage st1) = None ↔ key = "").
Proof.
  cbv zeta. unfold changeApiKey, modify, initial_state. cbn.
  destruct (String.eqb key "") eqn:Hk.
  - apply String.eqb_eq in Hk as ->. done.
  - apply String.eqb_neq in Hk. repeat split; done.
Qed.

(** *** Runs of a dashboard *)

(** The state after [onSelect(agent)]. *)
Lemma select_eq today a st :
  (select today a st).2 =
  (commit (activeAgent st)
     (if is_active (activeAgent st) a then st
      else if MAX_CALLS_PER_DAY <=? count_of (getUsage today st).1 (id a)
           then set_alerts (alerts st ++ [limit_alert a]) st
           else set_activeAgent (Some a) st)).2.
Proof.
  unfold select, mbind, ui_bind, gets. cbv beta iota.
  rewrite handleSelectAgent_cases.
  destruct (is_active _ _); [done|]. by destruct (_ <=? _).
Qed.

(** The state after a submit: untouched, or counted and possibly sent. *)
Lemma submit_cases today st :
  (handleSubmit trim today st).2 = st ∨
  ∃ a c,
    activeAgent st = Some a ∧ chat st = Some c ∧
    let sent := {| role := "user"; content := Some (JStr (trim (input c))) |} in
    let c' := {| messages := messages c ++ [sent]; input := ""; isLoading := true;
                 error := ""; conversationHistory := conversationHistory c |} in
    let u' := (incrementUsage today (id a) st).1 in
    let counted :=
      set_usage u'
        (set_localStorage {| agentUsage := Some u';
                             watsonxApiKey := watsonxApiKey (localStorage st) |}
           (set_chat (Some c') st)) in
    (handleSubmit trim today st).2 =
    if String.eqb (apiKey st) "" then counted
    else set_requests (requests st ++
                         [ {| cc_apiKey := apiKey st;
                              cc_systemPrompt := systemPrompt a;
                              cc_messages := conversationHistory c ++ [sent] |} ])
           counted.
Proof.
  destruct (activeAgent st) as [a|] eqn:Ha.
  2:{ left. rewrite handleSubmit_idle; [done|]. intros ? ?. by rewrite Ha. }
  destruct (chat st) as [c|] eqn:Hc.
  2:{ left. rewrite handleSubmit_idle; [done|]. intros ? ? _. by rewrite Hc. }
  destruct (decide (trim (input c) = "")) as [Hblank|Hin].
  { left. rewrite handleSubmit_idle; [done|].
    intros ? ? _. rewrite Hc. intros [= <-]. by left. }
  destruct (isLoading c) eqn:Hload.
  { left. rewrite handleSubmit_idle; [done|].
    intros ? ? _. rewrite Hc. intros [= <-]. by right. }
  right. exists a, c. split; [done|]. split; [done|]. cbv zeta.
  rewrite (handleSubmit_past_guard today st a c Ha Hc Hin Hload). cbv zeta.
  rewrite handleIncrement_eq. cbv zeta.
  rewrite !incrementUsage_eq. cbv zeta. cbn [fst].
  rewrite !getUsage_eq. cbn [fst localStorage set_chat watsonxApiKey].
  by destruct (String.eqb (apiKey st) "").
Qed.

(** X11: every request the client has sent carries a key that is not empty
    and at most 11 messages, of which the last is the user's: the history,
    cut to 10, and the new message.  Without a key (demo mode) nothing is
    sent. *)
Theorem requests_are_keyed_and_bounded today ls es :
  Forall (λ req,
            cc_apiKey req ≠ "" ∧
            (length (cc_messages req) ≤ 11)%nat ∧
            ∃ text, last (cc_messages req)
                    = Some {| role := "user"; content := Some (JStr text) |})
         (requests (steps trim demoResponse es (initial_state today ls))).
Proof.
  assert (∀ es st,
            history_bounded st →
            Forall (λ req,
                      cc_apiKey req ≠ "" ∧
                      (length (cc_messages req) ≤ 11)%nat ∧
                      ∃ text, last (cc_messages req)
                              = Some {| role := "user"; content := Some (JStr text) |})
                   (requests st) →
            Forall (λ req,
                      cc_apiKey req ≠ "" ∧
                      (length (cc_messages req) ≤ 11)%nat ∧
                      ∃ text, last (cc_messages req)
                              = Some {| role := "user"; content := Some (JStr text) |})
                   (requests (steps trim demoResponse es st))) as Hrun.
  { clear. induction es as [|[today e] es IH]; intros st Hb Hreq; [done|].
    cbn [steps]. apply IH; [by apply step_history_bounded|].
    destruct e as [a|text| |p outcome|key]; cbn [step]; try done.
    - rewrite click_cases. destruct (isDisabled _ _); [done|].
      rewrite select_eq.
      match goal with
      | |- context [commit ?b ?s] =>
          destruct (commit_frame b s) as (_ & -> & _)
      end.
      destruct (is_active _ _); [done|]. by destruct (_ <=? _).
    - destruct (submit_cases today st) as [->|(a & c & Ha & Hc & Hst)]; [done|].
      cbv zeta in Hst. rewrite Hst.
      destruct (String.eqb (apiKey st) "") eqn:Hkey; [done|].
      cbn [requests set_requests]. apply Forall_app. split; [done|].
      apply Forall_singleton. cbn [cc_apiKey cc_messages].
      split; [by apply String.eqb_neq|]. split.
      + rewrite length_app. cbn. unfold history_bounded in Hb. rewrite Hc in Hb. lia.
      + exists (trim (input c)). by rewrite last_snoc. }
  apply Hrun; [|by apply Forall_nil].
  unfold history_bounded, initial_state. by cbn.
Qed.

(** X12: within a day the stored counters only grow.  When the stored record
    is dated today, then after any events of that day the stored record is
    still dated today and no counter is smaller than before. *)
Theorem counters_grow_within_a_day today es st u :
  agentUsage (localStorage st) = Some u →
  date u = today →
  Forall (λ te, te.1 = today) es →
  ∃ u', agentUsage (localStorage (steps trim demoResponse es st)) = Some u' ∧
        date u' = today ∧
        ∀ k, count_of u k ≤ count_of u' k.
Proof.
  intros Hu Hd Hes. revert st u Hu Hd.
  induction Hes as [|[day e] es Hday _ IH]; intros st u Hu Hd.
  { exists u. repeat split; [done..|]. intros k. lia. }
  cbn in Hday. subst day. cbn [steps].
  assert (∃ u1, agentUsage (localStorage (step trim demoResponse today e st)) = Some u1 ∧
                date u1 = today ∧ ∀ k, count_of u k ≤ count_of u1 k)
    as (u1 & Hu1 & Hd1 & Hle1).
  { destruct e as [a|text| |p outcome|key]; cbn [step].
    - exists u. rewrite click_cases. destruct (isDisabled _ _).
      { repeat split; [done..|]. intros k. lia. }
      rewrite select_eq.
      match goal with
      | |- context [commit ?b ?s] =>
          destruct (commit_frame b s) as (_ & _ & _ & ->)
      end.
      split; [|split; [done|intros k; lia]].
      destruct (is_active _ _); [done|]. by destruct (_ <=? _).
    - exists u. repeat split; [done..|]. intros k. lia.
    - destruct (submit_cases today st) as [->|(a & c & Ha & Hc & Hst)].
      { exists u. repeat split; [done..|]. intros k. lia. }
      cbv zeta in Hst. rewrite Hst.
      rewrite (incrementUsage_current _ _ _ _ Hu Hd). cbv zeta. cbn [fst].
      eexists. split; [by destruct (String.eqb (apiKey st) "")|].
      split; [done|]. intros k. unfold count_of at 2. cbn [counts].
      destruct (decide (k = id a)) as [->|Hk].
      + rewrite lookup_insert_eq. cbn. lia.
      + rewrite lookup_insert_ne by done. done.
    - exists u. repeat split; [done..|]. intros k. lia.
    - exists u. repeat split; [done..|]. intros k. lia. }
  destruct (IH _ _ Hu1 Hd1) as (u' & Hu' & Hd' & Hle').
  exists u'. repeat split; [done..|]. intros k. specialize (Hle1 k). specialize (Hle' k). lia.
Qed.

(** The two tests of the limit agree: the card's button is disabled exactly
    when [handleSelectAgent] would refuse on the same record. *)
Lemma isDisabled_limit u a :
  isDisabled u a = (MAX_CALLS_PER_DAY <=? count_of u (id a)).
Proof.
  unfold isDisabled. cbv zeta.
  destruct (MAX_CALLS_PER_DAY <=? count_of u (id a)) eqn:H.
  - apply Z.leb_le in H. apply Z.leb_le. lia.
  - apply Z.leb_gt in H. apply Z.leb_gt. lia.
Qed.

Lemma commit_usage before st : usage (commit before st).2 = usage st.
Proof.
  unfold commit, modify. cbn [snd].
  destruct (activeAgent st) as [a|]; [|done].
  destruct before as [b|]; [destruct (chat st) as [c|]|]; try done.
  by destruct (decide _).
Qed.

(** X13: in one tab on one day the limit notification is never shown.  The
    usage the dashboard shows stays equal to what [getUsage] reads, so at the
    limit the card's button is already disabled and [handleSelectAgent] is
    not reached. *)
Theorem no_alert_in_one_tab_on_one_day today ls es :
  Forall (λ te, te.1 = today) es →
  let st := steps trim demoResponse es (initial_state today ls) in
  alerts st = [] ∧ (getUsage today st).1 = usage st.
Proof.
  intros Hes. cbv zeta.
  assert (∀ st, alerts st = [] ∧ (getUsage today st).1 = usage st →
                alerts (steps trim demoResponse es st) = [] ∧
                (getUsage today (steps trim demoResponse es st)).1
                = usage (steps trim demoResponse es st)) as Hrun.
  { induction Hes as [|[day e] es Hday _ IH]; intros st Hst; [done|].
    cbn in Hday. subst day. cbn [steps]. apply IH. clear IH.
    destruct Hst as [Halerts Hsync].
    destruct e as [a|text| |p outcome|key]; cbn [step].
    - rewrite click_cases. destruct (isDisabled (usage st) a) eqn:Hdis; [done|].
      rewrite select_eq.
      assert ((MAX_CALLS_PER_DAY <=? count_of (getUsage today st).1 (id a)) = false)
        as -> by by rewrite Hsync, <- isDisabled_limit.
      match goal with
      | |- context [commit ?b ?s] =>
          destruct (commit_frame b s) as (_ & _ & Ha & Hl);
          pose proof (commit_usage b s) as Hus
      end.
      rewrite getUsage_eq. cbn [fst]. rewrite Ha, Hl, Hus.
      rewrite getUsage_eq in Hsync. cbn [fst] in Hsync.
      by destruct (is_active _ _).
    - rewrite getUsage_eq. cbn. rewrite getUsage_eq in Hsync. done.
    - destruct (submit_cases today st) as [->|(a & c & Ha & Hc & Hst)]; [done|].
      cbv zeta in Hst. rewrite Hst.
      pose proof (incrementUsage_date today (id a) st) as Hd.
      destruct (String.eqb (apiKey st) "");
        (split; [done|]); by erewrite getUsage_current.
    - rewrite getUsage_eq. cbn. rewrite getUsage_eq in Hsync. done.
    - rewrite getUsage_eq. cbn. rewrite getUsage_eq in Hsync. done. }
  apply Hrun. unfold initial_state. cbn. split; [done|].
  rewrite !getUsage_eq. done.
Qed.

(** X14: a dashboard shows the chat exactly while an agent is active, and
    the transcript always opens with the greeting of the active agent. *)
Theorem transcript_opens_with_greeting today ls es :
  let st := steps trim demoResponse es (initial_state today ls) in
  match activeAgent st, chat st with
  | None, None => True
  | Some a, Some c => ∃ rest, messages c = greeting a :: rest
  | _, _ => False
  end.
Proof.
  cbv zeta.
  assert (∀ es st,
            match activeAgent st, chat st with
            | None, None => True
            | Some a, Some c => ∃ rest, messages c = greeting a :: rest
            | _, _ => False
            end →
            match activeAgent (steps trim demoResponse es st),
                  chat (steps trim demoResponse es st) with
            | None, None => True
            | Some a, Some c => ∃ rest, messages c = greeting a :: rest
            | _, _ => False
            end) as Hrun.
  { clear. induction es as [|[day e] es IH]; intros st Hst; [done|].
    cbn [steps]. apply IH. clear IH.
    destruct e as [a|text| |p outcome|key]; cbn [step].
    - rewrite click_cases. destruct (isDisabled _ _); [done|].
      rewrite select_eq. unfold commit, modify. cbn [snd].
      destruct (is_active (activeAgent st) a) eqn:Hact;
        [|destruct (_ <=? _)];
        cbn [activeAgent chat set_alerts set_activeAgent].
      + destruct (activeAgent st) as [b|] eqn:Hb, (chat st) as [c|] eqn:Hc; try done;
          rewrite ?decide_True by done; by rewrite ?Hb, ?Hc.
      + destruct (activeAgent st) as [b|] eqn:Hb, (chat st) as [c|] eqn:Hc; try done;
          rewrite ?decide_True by done; cbn [activeAgent chat set_alerts];
          by rewrite ?Hb, ?Hc.
      + destruct (activeAgent st) as [b|], (chat st) as [c|]; try done.
        * rewrite decide_False.
          -- cbn. by eexists.
          -- unfold effect_deps. intros [= Hid _ _]. cbn in Hact.
             rewrite bool_decide_eq_false in Hact. congruence.
        * cbn. by eexists.
    - cbn. destruct (activeAgent st), (chat st); try done; cbn;
        destruct Hst as [rest ->]; by eexists.
    - destruct (submit_cases day st) as [->|(a & c & Ha & Hc & Hsub)]; [done|].
      cbv zeta in Hsub. rewrite Hsub. rewrite Ha, Hc in Hst. destruct Hst as [rest Hrest].
      destruct (String.eqb (apiKey st) ""); cbn; rewrite Ha, Hrest; by eexists.
    - unfold handleSubmit_resume, modify. cbn.
      destruct (activeAgent st), (chat st); try done; cbn;
        destruct Hst as [rest Hrest];
        destruct p, outcome; cbn; rewrite Hrest; by eexists.
    - cbn. by destruct (activeAgent st), (chat st). }
  apply Hrun. unfold initial_state. by cbn.
Qed.

(** The chat a click leaves behind when it changes the active agent. *)
Lemma select_changed today a st :
  activeAgent (select today a st).2 ≠ activeAgent st →
  activeAgent (select today a st).2 = Some a ∧
  ∃ c0, chat (select today a st).2 = Some (agent_effect a c0).
Proof.
  rewrite select_eq.
  destruct (is_active (activeAgent st) a) eqn:Hact.
  { intros H. exfalso. apply H.
    by destruct (commit_frame (activeAgent st) st) as (-> & _). }
  destruct (_ <=? _).
  { intros H. exfalso. apply H.
    by destruct (commit_frame (activeAgent st)
                   (set_alerts (alerts st ++ [limit_alert a]) st)) as (-> & _). }
  intros _. unfold commit, modify. cbn [snd activeAgent set_activeAgent].
  destruct (activeAgent st) as [b|] eqn:Hb; [destruct (chat st) as [c|] eqn:Hc|].
  - cbn [chat set_activeAgent]. rewrite Hc, decide_False.
    + split; [done|]. by eexists.
    + unfold effect_deps. intros [= Hid _ _]. simpl in Hact.
      rewrite bool_decide_eq_false in Hact. congruence.
  - cbn [chat set_activeAgent]. rewrite Hc. split; [done|]. by eexists.
  - split; [done|]. by eexists.
Qed.

(** X15: an agent that is not the active one and whose counter for today, as
    [getUsage] reads it, is below 200 becomes the active agent on selection:
    no notification, no request, no write to the store, and the chat starts
    over with its greeting.  A counter that stood at the limit on an earlier
    day does not stand in the way. *)
Theorem select_under_limit_activates today a st :
  is_active (activeAgent st) a = false →
  is_agent_key (id a) = true →
  count_of (getUsage today st).1 (id a) < MAX_CALLS_PER_DAY →
  let st' := (select today a st).2 in
  activeAgent st' = Some a ∧
  alerts st' = alerts st ∧
  requests st' = requests st ∧
  localStorage st' = localStorage st ∧
  ∃ c0, chat st' = Some (agent_effect a c0).
Proof.
  intros Hact _ Hcount. cbv zeta.
  assert (activeAgent (select today a st).2 ≠ activeAgent st) as Hchanged.
  { rewrite select_eq, Hact, (proj2 (Z.leb_gt _ _) Hcount).
    destruct (commit_frame (activeAgent st) (set_activeAgent (Some a) st)) as (-> & _).
    cbn. intros Heq. rewrite <- Heq in Hact. cbn in Hact.
    by rewrite bool_decide_eq_false in Hact. }
  destruct (select_changed _ _ _ Hchanged) as [Hnew Hchat].
  split; [done|]. rewrite select_eq, Hact, (proj2 (Z.leb_gt _ _) Hcount) in *.
  by destruct (commit_frame (activeAgent st) (set_activeAgent (Some a) st))
    as (_ & -> & -> & ->).
Qed.

(** X16: an answer that arrives after the user has switched agents is not
    dropped.  When its content is a string, it is appended to the transcript
    of the new agent, right after the greeting, the exchange it closes
    becomes the new agent's history, and the transcript renders. *)
Theorem late_answer_joins_new_agent today a st userMessage response :
  activeAgent (select today a st).2 ≠ activeAgent st →
  is_string response = true →
  ∃ c,
    chat (handleSubmit_resume demoResponse (AwaitCall userMessage) (Returned response)
            (select today a st).2).2 = Some c ∧
    messages c = [greeting a; {| role := "assistant"; content := response |}] ∧
    conversationHistory c = turns (userMessage, response) ∧
    renders c = true.
Proof.
  intros Hchanged Hstr. destruct (select_changed _ _ _ Hchanged) as [_ [c0 Hchat]].
  unfold handleSubmit_resume, modify. cbn [snd chat set_chat]. rewrite Hchat.
  eexists. split; [reflexivity|]. split; [done|]. split.
  - rewrite resume_history. cbn [conversationHistory agent_effect].
    by rewrite remember_slice.
  - unfold renders. cbn. by rewrite Hstr.
Qed.

(** X17: on a transcript that renders, a submit that goes on, followed by
    the end of its exchange, adds exactly two messages to the transcript, the
    user's trimmed input and one message of the assistant, empties the input
    and unlocks it, and the transcript renders again, provided that a content
    returned in live mode is a string.  The assistant's message is the canned
    text in demo mode, the returned content in live mode, and the error text
    when the call threw, in which case the banner shows the thrown
    message. *)
Theorem exchange_adds_two_messages today st a c outcome :
  activeAgent st = Some a →
  chat st = Some c →
  trim (input c) ≠ "" →
  isLoading c = false →
  renders c = true →
  (∀ response, apiKey st ≠ "" → outcome = Returned response →
               is_string response = true) →
  ∃ p st1 c2 answer,
    handleSubmit trim today st = (Some p, st1) ∧
    (∃ c1, chat st1 = Some c1 ∧ renders c1 = true) ∧
    chat (handleSubmit_resume demoResponse p outcome st1).2 = Some c2 ∧
    renders c2 = true ∧
    messages c2
    = messages c ++ [ {| role := "user"; content := Some (JStr (trim (input c))) |};
                      answer ] ∧
    role answer = "assistant" ∧
    input c2 = "" ∧ isLoading c2 = false ∧
    (if String.eqb (apiKey st) "" then
       content answer = Some (JStr (demoResponse (id a) (trim (input c)))) ∧
       error c2 = ""
     else
       match outcome with
       | Returned response => content answer = response ∧ error c2 = ""
       | Threw text => answer = error_message text ∧ error c2 = text
       end).
Proof.
  intros Ha Hc Hin Hload Hren Hstr.
  pose proof (handleSubmit_past_guard today st a c Ha Hc Hin Hload) as Hrun.
  cbv zeta in Hrun.
  destruct (handleIncrement_frame today (id a)
              (set_chat (Some {| messages := messages c ++
                                   [ {| role := "user";
                                        content := Some (JStr (trim (input c))) |} ];
                                 input := ""; isLoading := true; error := "";
                                 conversationHistory := conversationHistory c |}) st))
    as (Hchat & _).
  assert (Hsent : forallb renders_message
                    (messages c ++ [ {| role := "user";
                                        content := Some (JStr (trim (input c))) |} ])
                  = true).
  { rewrite forallb_app. unfold renders in Hren. by rewrite Hren. }
  assert (Hanswer : ∀ m, renders_message m = true →
            forallb renders_message
              ((messages c ++ [ {| role := "user";
                                   content := Some (JStr (trim (input c))) |} ]) ++ [m])
            = true).
  { intros m Hm. rewrite forallb_app, Hsent. cbn. by rewrite Hm. }
  destruct (String.eqb (apiKey st) "") eqn:Hkey.
  - destruct outcome; eexists _, _, _, _; (split; [exact Hrun|]);
      (split; [eexists; split; [exact Hchat|exact Hsent]|]);
      unfold handleSubmit_resume, modify; cbn [snd chat set_chat]; rewrite Hchat;
      (split; [reflexivity|]);
      (split; [by apply Hanswer|]);
      cbn; (split; [by rewrite <- app_assoc|]); done.
  - apply String.eqb_neq in Hkey.
    destruct outcome as [response|text]; eexists _, _, _, _; (split; [exact Hrun|]);
      (split; [eexists; split; [exact Hchat|exact Hsent]|]);
      unfold handleSubmit_resume, modify; cbn [snd chat set_chat set_requests];
      rewrite Hchat; (split; [reflexivity|]);
      (split; [apply Hanswer; first [by apply (Hstr response Hkey) | done]|]);
      cbn; (split; [by rewrite <- app_assoc|]); done.
Qed.

(** X25: what a submit sends.  With a key, a submit that goes on sends
    exactly one request: the key, the system prompt of the active agent, and
    the history as it stands followed by the trimmed input as a user message;
    it then awaits the call.  Without a key it sends nothing and awaits the
    timer of demo mode. *)
Theorem submit_sends_history_and_message today st a c :
  activeAgent st = Some a →
  chat st = Some c →
  trim (input c) ≠ "" →
  isLoading c = false →
  ∃ p st1,
    handleSubmit trim today st = (Some p, st1) ∧
    if String.eqb (apiKey st) "" then
      p = AwaitTimer (id a) (trim (input c)) ∧ requests st1 = requests st
    else
      p = AwaitCall (trim (input c)) ∧
      requests st1
      = requests st ++
        [ {| cc_apiKey := apiKey st;
             cc_systemPrompt := systemPrompt a;
             cc_messages := conversationHistory c ++
                            [ {| role := "user";
                                 content := Some (JStr (trim (input c))) |} ] |} ].
Proof.
  intros Ha Hc Hin Hload.
  pose proof (handleSubmit_past_guard today st a c Ha Hc Hin Hload) as Hrun.
  cbv zeta in Hrun.
  match type of Hrun with
  | context [handleIncrement today (id a) ?s] =>
      destruct (handleIncrement_frame today (id a) s) as (_ & _ & _ & Hreq)
  end.
  destruct (String.eqb (apiKey st) ""); eexists _, _; (split; [exact Hrun|]);
    split; try done; cbn [requests set_requests]; by rewrite Hreq.
Qed.

End ClientFurther.

(** ** The client and the proxy together *)

Section EndToEnd.
Import Json Server App Wire.

Variable ToString : json → string.

(** What the proxy reads in the body [callWatsonX] sends. *)
Lemma chat_call_body_fields (req : chat_call) :
  chat_call_body req ≠ JNull ∧
  own_prop (chat_call_body req) "apiKey" = Some (JStr (cc_apiKey req)) ∧
  own_prop (chat_call_body req) "systemPrompt" = Some (JStr (cc_systemPrompt req)) ∧
  own_prop (chat_call_body req) "messages"
  = Some (JArr (message_json <$> cc_messages req)).
Proof. done. Qed.

Lemma truthy_string (text : string) : text ≠ "" → truthy (Some (JStr text)) = true.
Proof. intros H. cbn. by rewrite (proj2 (String.eqb_neq _ _) H). Qed.

(** The chat handler on a request of the client. *)
Lemma chat_handler_on_client_request cfg up (req : chat_call) :
  cc_apiKey req ≠ "" →
  run (chat_handler cfg (Some (chat_call_body req))) up =
  match run (chat_forward cfg (Some (JStr (cc_apiKey req)))
               (Some (JStr (cc_systemPrompt req)))
               (message_json <$> cc_messages req)) up with
  | (Ok rep, log) => (Ok rep, log)
  | (Throw e, log) =>
      (Ok {| status := 500; body := {[ "error" := JStr e ]} |}, log)
  end.
Proof.
  intros Hkey.
  destruct (chat_call_body_fields req) as (Hb & H1 & H2 & H3).
  rewrite (chat_handler_forwards cfg up _ (message_json <$> cc_messages req) Hb);
    [|by rewrite H1; apply truthy_string|done].
  by rewrite H1, H2.
Qed.

(** X18: a request the client sends with a key passes both checks of the
    proxy's chat handler: the handler answers, and the first thing it has
    done is call the token endpoint with the client's key. *)
Theorem client_request_reaches_token_exchange cfg up (req : chat_call) :
  cc_apiKey req ≠ "" →
  ∃ rep calls,
    run (chat_handler cfg (Some (chat_call_body req))) up
    = (Ok rep, TokenCall (Some (JStr (cc_apiKey req))) :: calls).
Proof.
  intros Hkey. rewrite (chat_handler_on_client_request _ _ _ Hkey).
  destruct (run (chat_forward _ _ _ _) up) as [r log] eqn:Hrun.
  destruct (chat_forward_log _ _ _ _ _ _ _ Hrun) as [[H _]|[_ [->|[call ->]]]];
    [discriminate H| |]; destruct r; by eexists _, _.
Qed.

(** X19: the text the user submitted reaches the model with its context, and
    the model's answer reaches the client.  When the token exchange succeeds
    and the chat-completion endpoint answers the request built from the
    client's body with a success status and a [choices[0].message.content],
    the chat-completion endpoint has been sent the client's system prompt
    followed by the client's messages, and [callWatsonX] returns exactly that
    content. *)
Theorem live_answer_reaches_client cfg up (req : chat_call) token log0
    response data choices choice message text :
  cc_apiKey req ≠ "" →
  cc_systemPrompt req ≠ "" →
  run (getIAMToken (Some (JStr (cc_apiKey req)))) up = (Ok token, log0) →
  chat_endpoint up
    (chat_completion_request cfg token
       (JObj {[ "role" := JStr "system"; "content" := JStr (cc_systemPrompt req) ]}
        :: (message_json <$> cc_messages req)))
    = Responded response →
  resp_ok response = true →
  resp_json response = Ok data →
  own_prop data "choices" = Some choices →
  first_elem choices = Some choice →
  own_prop choice "message" = Some message →
  own_prop message "content" = Some text →
  ∃ rep log,
    run (chat_handler cfg (Some (chat_call_body req))) up = (Ok rep, log) ∧
    callWatsonX_settle ToString (deliver rep) = Returned (Some text).
Proof.
  intros Hkey Hsp Htok Hchat Hok Hjson Hchoices Hfirst Hmessage Hcontent.
  rewrite (chat_handler_on_client_request _ _ _ Hkey).
  unfold run, chat_forward. rewrite io_bind_run.
  rewrite (getIAMToken_run _ _ _ _ Htok). rewrite io_bind_run.
  unfold Server.fetch_chat.
  assert (fullMessages (Some (JStr (cc_systemPrompt req))) (message_json <$> cc_messages req)
          = JObj {[ "role" := JStr "system"; "content" := JStr (cc_systemPrompt req) ]}
            :: (message_json <$> cc_messages req)) as ->.
  { unfold fullMessages, js_or. by rewrite (truthy_string _ Hsp). }
  rewrite Hchat. cbn [settle]. cbv iota beta. rewrite Hok. cbn [negb].
  assert (Hdata : get_prop (Some data) "choices" = Ok (Some choices)).
  { destruct data; simpl in *; try discriminate. by rewrite Hchoices. }
  assert (Hc0 : get_first (Some choices) = Ok (Some choice)).
  { destruct choices; simpl in *; try discriminate; by rewrite Hfirst. }
  assert (Hm : get_prop (Some choice) "message" = Ok (Some message)).
  { destruct choice; simpl in *; try discriminate. by rewrite Hmessage. }
  assert (Hc : get_prop (Some message) "content" = Ok (Some text)).
  { destruct message; simpl in *; try discriminate. by rewrite Hcontent. }
  rewrite !io_bind_run. unfold lift. rewrite Hjson. cbv iota beta.
  rewrite !io_bind_run, Hdata. cbv iota beta.
  rewrite !io_bind_run, Hc0. cbv iota beta.
  rewrite !io_bind_run, Hm. cbv iota beta.
  rewrite !io_bind_run, Hc. cbv iota beta.
  eexists _, _. split; [reflexivity|].
  unfold callWatsonX_settle, deliver. cbn.
  by rewrite lookup_insert_eq.
Qed.

(** X20: what the proxy throws while it makes its external calls is what the
    user is shown.  For a request of the client with a key, the message of
    the exception comes back as the [error] of a 500 reply, [callWatsonX]
    throws it again (an empty message is replaced by ["WatsonX API call
    failed"]), and [handleSubmit] puts it in the banner and in the
    transcript. *)
Theorem proxy_exception_reaches_user cfg up (req : chat_call) e log
    demoResponse userMessage c :
  (∀ text, ToString (JStr text) = text) →
  cc_apiKey req ≠ "" →
  run (chat_forward cfg (Some (JStr (cc_apiKey req)))
         (Some (JStr (cc_systemPrompt req)))
         (message_json <$> cc_messages req)) up = (Throw e, log) →
  let shown := if String.eqb e "" then "WatsonX API call failed" else e in
  ∃ rep,
    run (chat_handler cfg (Some (chat_call_body req))) up = (Ok rep, log) ∧
    status rep = 500 ∧
    callWatsonX_settle ToString (deliver rep) = Threw shown ∧
    let c2 := resume demoResponse (AwaitCall userMessage)
                (callWatsonX_settle ToString (deliver rep)) c in
    error c2 = shown ∧ messages c2 = messages c ++ [error_message shown].
Proof.
  intros Hstr Hkey Hthrow. cbv zeta.
  rewrite (chat_handler_on_client_request _ _ _ Hkey), Hthrow.
  eexists. split; [reflexivity|]. split; [done|].
  assert (callWatsonX_settle ToString
            (deliver {| status := 500; body := {[ "error" := JStr e ]} |})
          = Threw (if String.eqb e "" then "WatsonX API call failed" else e)) as ->.
  { unfold callWatsonX_settle, deliver. cbn. unfold js_or.
    rewrite lookup_singleton_eq. cbn.
    destruct (String.eqb e ""); cbn; by rewrite Hstr. }
  done.
Qed.

(** X21: [validateApiKey] against the proxy's validate handler returns
    [true] when the key is not empty and the token exchange for it succeeds,
    and [false] in every other case: it never throws and never returns
    anything else. *)
Theorem validateApiKey_end_to_end up key :
  ∃ rep log,
    run (validate_handler (Some (validate_body key))) up = (Ok rep, log) ∧
    ((key ≠ "" ∧
      (∃ token calls, run (getIAMToken (Some (JStr key))) up = (Ok token, calls)) ∧
      validateApiKey_settle (deliver rep) = Some (JBool true))
     ∨
     (¬ (key ≠ "" ∧
         ∃ token calls, run (getIAMToken (Some (JStr key))) up = (Ok token, calls)) ∧
      validateApiKey_settle (deliver rep) = Some (JBool false))).
Proof.
  unfold run, validate_handler, try_catch. rewrite io_bind_run. unfold lift.
  rewrite destructure_ok by done. cbv iota beta zeta.
  assert (own_prop (validate_body key) "apiKey" = Some (JStr key)) as -> by done.
  destruct (String.eqb key "") eqn:Hkey.
  { apply String.eqb_eq in Hkey as ->. eexists _, _. split; [reflexivity|].
    right. split; [by intros [? _]|reflexivity]. }
  apply String.eqb_neq in Hkey. rewrite (truthy_string _ Hkey). cbn [negb].
  rewrite io_bind_run, getIAMToken_log.
  destruct (run (getIAMToken (Some (JStr key))) up) as [[token|e] log0] eqn:Hrun;
    cbn [fst]; cbv iota beta.
  - eexists _, _. split; [reflexivity|]. left. split; [done|]. split; [|reflexivity].
    by eexists _, _.
  - eexists _, _. split; [reflexivity|]. right. split; [|reflexivity].
    by intros (_ & ? & ? & [=]).
Qed.

End EndToEnd.

(** ** Logging in *)

Section LoginProperties.
Import Json Server App Wire.

(** X22: logging in through the proxy.  The login page is let in exactly
    when the user name and the password typed are the two configured ones:
    then [App] shows the dashboard and the session item is ['true'].
    Otherwise the page shows ["Invalid credentials"] and neither the state of
    [App] nor the session item changes.  Either way the form is unlocked
    again. *)
Theorem login_end_to_end creds (a : Login.app) :
  ∃ rep,
    login_handler creds (Some (Login.login_request (Login.loginPage a))) = Ok rep ∧
    let a' := Login.handleSubmit_finish (deliver rep) (Login.handleSubmit_start a) in
    Login.isLoading (Login.loginPage a') = false ∧
    if decide (Login.username (Login.loginPage a) = DEMO_USER creds ∧
               Login.password (Login.loginPage a) = DEMO_PASSWORD creds)
    then Login.isLoggedIn a' = true ∧ Login.sessionItem a' = Some "true"
    else Login.isLoggedIn a' = Login.isLoggedIn a ∧
         Login.sessionItem a' = Login.sessionItem a ∧
         Login.error (Login.loginPage a') = Some (JStr "Invalid credentials").
Proof.
  unfold login_handler, Login.login_request. cbn [destructure].
  assert (∀ u p : string,
            own_prop (JObj (json_object [("username", Some (JStr u));
                                         ("password", Some (JStr p))])) "username"
            = Some (JStr u) ∧
            own_prop (JObj (json_object [("username", Some (JStr u));
                                         ("password", Some (JStr p))])) "password"
            = Some (JStr p)) as Hfields by done.
  destruct (Hfields (Login.username (Login.loginPage a))
                    (Login.password (Login.loginPage a))) as [-> ->].
  cbv zeta. cbn [strict_eq_string].
  destruct (String.eqb (Login.username (Login.loginPage a)) (DEMO_USER creds)) eqn:Hu;
    [destruct (String.eqb (Login.password (Login.loginPage a)) (DEMO_PASSWORD creds)) eqn:Hp|];
    cbn [andb]; eexists; (split; [reflexivity|]); (split; [done|]).
  - apply String.eqb_eq in Hu, Hp. by rewrite decide_True.
  - apply String.eqb_neq in Hp. rewrite decide_False; [done|]. by intros [_ ?].
  - apply String.eqb_neq in Hu. rewrite decide_False; [done|]. by intros [? _].
Qed.

(** X23: the client lets the user in only on an answer that has both a
    success status and a truthy [success]; a network failure, an answer that
    is not JSON and an answer that is [null] end in ["Login failed. Please
    try again."]. *)
Theorem login_needs_ok_and_success f (a : Login.app) :
  let a' := Login.handleSubmit_finish f a in
  (Login.isLoggedIn a' = true →
   Login.isLoggedIn a = true ∨
   ∃ r data, f = Resolved r ∧ ok r = true ∧ json_body r = Ok data ∧
             truthy (own_prop data "success") = true) ∧
  ((∃ e, f = Rejected e) ∨
   (∃ r e, f = Resolved r ∧ json_body r = Throw e) ∨
   (∃ r, f = Resolved r ∧ json_body r = Ok JNull) →
   Login.error (Login.loginPage a') = Some (JStr "Login failed. Please try again.") ∧
   Login.isLoggedIn a' = Login.isLoggedIn a).
Proof.
  cbv zeta. unfold Login.handleSubmit_finish, Login.attempt. split.
  - destruct f as [e|r]; [by left|].
    destruct (json_body r) as [data|e] eqn:Hdata; [|by left].
    destruct (json_null_dec data) as [->|Hnull].
    { cbn. destruct (ok r); by left. }
    assert (∀ k, get_prop (Some data) k = Ok (own_prop data k)) as Hget
      by (intros k; by destruct data).
    rewrite !Hget.
    destruct (ok r) eqn:Hok; [|by left].
    destruct (truthy (own_prop data "success")) eqn:Hs.
    + intros _. right. by exists r, data.
    + by left.
  - intros [[e ->]|[(r & e & -> & ->)|(r & -> & ->)]]; try done.
    cbn. by destruct (ok r).
Qed.

(** X24: the session item and the state of [App] agree, and they keep
    agreeing through a login attempt and a logout; a reload ([mount] over the
    session item) shows what was shown before, and after a logout it shows
    the login page. *)
Theorem session_item_agrees_with_app f (a : Login.app) :
  (Login.isLoggedIn a = true ↔ Login.sessionItem a = Some "true") →
  let a' := Login.handleSubmit_finish f (Login.handleSubmit_start a) in
  (Login.isLoggedIn a' = true ↔ Login.sessionItem a' = Some "true") ∧
  Login.isLoggedIn (Login.mount (Login.sessionItem a')) = Login.isLoggedIn a' ∧
  Login.isLoggedIn (Login.mount (Login.sessionItem (Login.handleLogout a'))) = false.
Proof.
  intros Hagree. cbv zeta.
  assert (∀ b : Login.app,
            (Login.isLoggedIn b = true ↔ Login.sessionItem b = Some "true") →
            Login.isLoggedIn (Login.mount (Login.sessionItem b)) = Login.isLoggedIn b)
    as Hmount.
  { intros b Hb. unfold Login.mount. cbn.
    destruct (Login.isLoggedIn b).
    - apply bool_decide_eq_true. by apply Hb.
    - apply bool_decide_eq_false. intros H%Hb. done. }
  assert (Login.isLoggedIn
            (Login.handleSubmit_finish f (Login.handleSubmit_start a)) = true
          ↔ Login.sessionItem
              (Login.handleSubmit_finish f (Login.handleSubmit_start a)) = Some "true")
    as Hagree'.
  { unfold Login.handleSubmit_finish.
    destruct (Login.attempt f) as [[e|]|e]; cbn; done. }
  split; [done|]. split; [by apply Hmount|done].
Qed.

End LoginProperties.

Section FurtherWitnesses.
Import Json Server App Wire.

Lemma idle_submit_changes_nothing_witness :
  let st := step trim_ascii demo_echo "2026-11-02" (Typing "   ")
              (session_at "2026-11-02" 5) in
  handleSubmit trim_ascii "2026-11-02" st = (None, st).
Proof.
  cbv zeta. apply (idle_submit_changes_nothing trim_ascii demo_echo).
  intros a c _ [= <-]. by left.
Defined.

Lemma counters_grow_within_a_day_witness :
  ∃ u', agentUsage (localStorage
                      (steps trim_ascii demo_echo
                         [("2026-11-02", Select AGENTS.emailRewriter);
                          ("2026-11-02", Typing "hi");
                          ("2026-11-02", Submit)]
                         (initial_state "2026-11-02" (store_with "2026-11-02" 3))))
        = Some u' ∧
        date u' = "2026-11-02" ∧
        ∀ k, count_of {| date := "2026-11-02";
                         counts := {[ "emailRewriter" := 3; "bauEstimate" := 0 ]} |} k
             ≤ count_of u' k.
Proof.
  apply (counters_grow_within_a_day trim_ascii demo_echo "2026-11-02");
    [reflexivity | reflexivity | repeat constructor].
Defined.

Lemma no_alert_in_one_tab_on_one_day_witness :
  alerts (steps trim_ascii demo_echo
            [("2026-11-02", Select AGENTS.emailRewriter);
             ("2026-11-02", Typing "hi");
             ("2026-11-02", Submit);
             ("2026-11-02", Select AGENTS.emailRewriter);
             ("2026-11-02", Select AGENTS.bauEstimate)]
            (initial_state "2026-11-02" (store_with "2026-11-02" 199))) = [].
Proof.
  apply (no_alert_in_one_tab_on_one_day trim_ascii demo_echo "2026-11-02").
  repeat constructor.
Defined.

Lemma select_under_limit_activates_witness :
  activeAgent (select "2026-11-02" AGENTS.emailRewriter
                 (initial_state "2026-11-02" (store_with "2026-11-01" 200))).2
  = Some AGENTS.emailRewriter.
Proof.
  apply (select_under_limit_activates "2026-11-02" AGENTS.emailRewriter
           (initial_state "2026-11-02" (store_with "2026-11-01" 200)));
    reflexivity.
Defined.

Lemma late_answer_joins_new_agent_witness :
  ∃ c,
    chat (handleSubmit_resume demo_echo (AwaitCall "hello") (Returned (Some (JStr "Hi")))
            (select "2026-11-02" AGENTS.bauEstimate (session_at "2026-11-02" 3)).2).2
    = Some c ∧
    messages c = [greeting AGENTS.bauEstimate;
                  {| role := "assistant"; content := Some (JStr "Hi") |}] ∧
    conversationHistory c = turns ("hello", Some (JStr "Hi")) ∧
    renders c = true.
Proof.
  apply late_answer_joins_new_agent.
  - vm_compute. discriminate.
  - reflexivity.
Defined.

Lemma exchange_adds_two_messages_witness :
  let st := step trim_ascii demo_echo "2026-11-02" (Typing " hello ")
              (step trim_ascii demo_echo "2026-11-02" (ChangeApiKey "key")
                 (session_at "2026-11-02" 3)) in
  ∃ p st1 c2,
    handleSubmit trim_ascii "2026-11-02" st = (Some p, st1) ∧
    chat (handleSubmit_resume demo_echo p (Returned (Some (JStr "Hi"))) st1).2 = Some c2 ∧
    renders c2 = true ∧
    messages c2
    = [greeting AGENTS.emailRewriter;
       {| role := "user"; content := Some (JStr "hello") |};
       {| role := "assistant"; content := Some (JStr "Hi") |}].
Proof.
  cbv zeta.
  destruct (exchange_adds_two_messages trim_ascii demo_echo "2026-11-02"
              (step trim_ascii demo_echo "2026-11-02" (Typing " hello ")
                 (step trim_ascii demo_echo "2026-11-02" (ChangeApiKey "key")
                    (session_at "2026-11-02" 3)))
              AGENTS.emailRewriter
              (setInput " hello " (agent_effect AGENTS.emailRewriter initial_chat))
              (Returned (Some (JStr "Hi"))))
    as (p & st1 & c2 & answer & H1 & _ & H2 & H3 & H4 & H5 & _ & _ & H6);
    try reflexivity.
  - by vm_compute.
  - by intros response _ [= <-].
  - exists p, st1, c2. repeat split; try done.
    destruct H6 as [H6 _]. rewrite H4. destruct answer as [r ct].
    cbn in H5, H6. by rewrite H5, H6.
Defined.

Lemma submit_sends_history_and_message_witness :
  let st := step trim_ascii demo_echo "2026-11-02" (Typing " hello ")
              (step trim_ascii demo_echo "2026-11-02" (ChangeApiKey "key")
                 (session_at "2026-11-02" 3)) in
  ∃ p st1,
    handleSubmit trim_ascii "2026-11-02" st = (Some p, st1) ∧
    p = AwaitCall "hello" ∧
    requests st1
    = [ {| cc_apiKey := "key";
           cc_systemPrompt := systemPrompt AGENTS.emailRewriter;
           cc_messages := [ {| role := "user"; content := Some (JStr "hello") |} ] |} ].
Proof.
  cbv zeta.
  destruct (submit_sends_history_and_message trim_ascii "2026-11-02"
              (step trim_ascii demo_echo "2026-11-02" (Typing " hello ")
                 (step trim_ascii demo_echo "2026-11-02" (ChangeApiKey "key")
                    (session_at "2026-11-02" 3)))
              AGENTS.emailRewriter
              (setInput " hello " (agent_effect AGENTS.emailRewriter initial_chat)))
    as (p & st1 & H1 & H2 & H3); try reflexivity.
  - by vm_compute.
  - by exists p, st1.
Defined.

Lemma client_request_reaches_token_exchange_witness :
  ∃ rep calls,
    run (chat_handler default_config
           (Some (chat_call_body
                    {| cc_apiKey := "key"; cc_systemPrompt := "Be brief";
                       cc_messages := [ {| role := "user";
                                           content := Some (JStr "hi") |} ] |})))
        (rejecting_upstream "no")
    = (Ok rep, TokenCall (Some (JStr "key")) :: calls).
Proof.
  apply (client_request_reaches_token_exchange default_config (rejecting_upstream "no")
           {| cc_apiKey := "key"; cc_systemPrompt := "Be brief";
              cc_messages := [ {| role := "user"; content := Some (JStr "hi") |} ] |}).
  discriminate.
Defined.

Lemma live_answer_reaches_client_witness :
  ∃ rep log,
    run (chat_handler default_config
           (Some (chat_call_body
                    {| cc_apiKey := "key"; cc_systemPrompt := "Be brief";
                       cc_messages := [ {| role := "user";
                                           content := Some (JStr "hi") |} ] |})))
        (answering_upstream "token" sample_completion) = (Ok rep, log) ∧
    callWatsonX_settle to_string_sample (deliver rep) = Returned (Some (JStr "Hi")).
Proof.
  apply (live_answer_reaches_client to_string_sample default_config
           (answering_upstream "token" sample_completion)
           {| cc_apiKey := "key"; cc_systemPrompt := "Be brief";
              cc_messages := [ {| role := "user"; content := Some (JStr "hi") |} ] |}
           (Some (JStr "token")) [TokenCall (Some (JStr "key"))]
           {| resp_status := 200; resp_text := ""; resp_json := Ok sample_completion |}
           sample_completion
           (JArr [JObj {[ "message" := JObj {[ "content" := JStr "Hi" ]} ]}])
           (JObj {[ "message" := JObj {[ "content" := JStr "Hi" ]} ]})
           (JObj {[ "content" := JStr "Hi" ]}) (JStr "Hi"));
    first [discriminate | reflexivity].
Defined.

Lemma proxy_exception_reaches_user_witness :
  ∃ rep,
    run (chat_handler default_config
           (Some (chat_call_body
                    {| cc_apiKey := "bad-key"; cc_systemPrompt := "Be brief";
                       cc_messages := [] |})))
        (rejecting_upstream "BXNIM0415E")
    = (Ok rep, [TokenCall (Some (JStr "bad-key"))]) ∧
    status rep = 500 ∧
    callWatsonX_settle to_string_sample (deliver rep)
    = Threw "IAM token error: BXNIM0415E".
Proof.
  destruct (proxy_exception_reaches_user to_string_sample default_config
              (rejecting_upstream "BXNIM0415E")
              {| cc_apiKey := "bad-key"; cc_systemPrompt := "Be brief";
                 cc_messages := [] |}
              "IAM token error: BXNIM0415E" [TokenCall (Some (JStr "bad-key"))]
              demo_echo "hi" initial_chat)
    as (rep & H1 & H2 & H3 & _); [done | discriminate | reflexivity |].
  by exists rep.
Defined.

Lemma session_item_agrees_with_app_witness :
  let a' := Login.handleSubmit_finish
              (deliver {| status := 200;
                          body := {[ "success" := JBool true;
                                     "message" := JStr "Login successful" ]} |})
              (Login.handleSubmit_start (Login.mount None)) in
  (Login.isLoggedIn a' = true ↔ Login.sessionItem a' = Some "true") ∧
  Login.isLoggedIn (Login.mount (Login.sessionItem a')) = Login.isLoggedIn a' ∧
  Login.isLoggedIn (Login.mount (Login.sessionItem (Login.handleLogout a'))) = false.
Proof.
  apply (session_item_agrees_with_app _ (Login.mount None)).
  split; discriminate.
Defined.

End FurtherWitnesses.
